(** * RozRemembers: the path engine and the action/event pipeline

    A shallow embedding of [src/roz_remembers.py] and the properties of
    its nested-path read and write and of its action processor.

    Modelling conventions.
    - A Python [str] is a [string] whose characters are the code points
      U+0000 to U+00FF.  [int] refuses a string of more than 4300
      digits, the default of CPython from 3.11 on.
    - A document is a tree of Python objects ([pyobj]): no container is
      held in two slots, as for the result of [json.load] and for
      JSON-like action payloads.  Sharing, which [copy.deepcopy] would
      keep, is outside the embedding.  A [dict] is an association list
      in insertion order, so that equality of two [pyobj]s is equality
      of their serialisations.
    - [copy.deepcopy] and the formatting of an object for a log line
      recurse on the depth of the object and raise [RecursionError]
      when the recursion limit of the interpreter is reached.  Which
      objects pass depends on the limit and on the stack at the call:
      an [interpreter] says it for each call of the source.
    - [_set_nested_value] mutates its target in place: the embedding
      returns the target as it is after the call next to the returned
      value, also when the call fails or raises.
    - A call that can raise returns a [result]. *)

From Stdlib Require Import List String Ascii Bool Arith NArith ZArith Lia.
Import ListNotations.

Set Warnings "-register-all".

Local Open Scope string_scope.
Local Open Scope list_scope.

(** ** Python strings *)

Module PyStr.

(** [str.split('.')]: the segments between the dots; never empty. *)
Fixpoint split (s : string) : list string :=
  match s with
  | EmptyString => [EmptyString]
  | String c rest =>
      if Ascii.eqb c "."%char then EmptyString :: split rest
      else match split rest with
           | [] => [String c EmptyString]
           | seg :: segs => String c seg :: segs
           end
  end.

Definition is_ascii_digit (c : ascii) : bool :=
  let n := N_of_ascii c in ((48 <=? n) && (n <=? 57))%N.

(** The characters below U+0100 that [str.isdigit] accepts: the ASCII
    digits and the superscripts U+00B2, U+00B3 and U+00B9. *)
Definition is_digit_char (c : ascii) : bool :=
  let n := N_of_ascii c in
  is_ascii_digit c || (n =? 178)%N || (n =? 179)%N || (n =? 185)%N.

Fixpoint all_chars (f : ascii -> bool) (s : string) : bool :=
  match s with
  | EmptyString => true
  | String c rest => f c && all_chars f rest
  end.

(** [str.isdigit]: every character is a digit and there is at least one. *)
Definition isdigit (s : string) : bool :=
  match s with
  | EmptyString => false
  | _ => all_chars is_digit_char s
  end.

Fixpoint int_acc (s : string) (acc : N) : option N :=
  match s with
  | EmptyString => Some acc
  | String c rest =>
      if is_ascii_digit c
      then int_acc rest (10 * acc + (N_of_ascii c - 48))%N
      else None
  end.

(** [sys.int_info.default_max_str_digits] *)
Definition max_str_digits : nat := 4300.

(** [int(part)] as the source calls it, on a string that passed
    [isdigit]: the base-10 value of a string of ASCII digits (leading
    zeros allowed), [None] for the [ValueError] that a superscript
    digit or a string of more than [max_str_digits] digits raises. *)
Definition int (s : string) : option N :=
  match s with
  | EmptyString => None
  | _ =>
      if (max_str_digits <? String.length s)%nat then None
      else int_acc s 0%N
  end.

End PyStr.

(** ** Python values, results and containers *)

Inductive exn : Type :=
| AttributeError
| TypeError
| ValueError
| KeyError
| RecursionError.

Inductive result (A : Type) : Type :=
| Ok (a : A)
| Raise (e : exn).

Arguments Ok {A} a.
Arguments Raise {A} e.

(** JSON-like objects.  Numbers are integers here; the code treats
    every value that is not [None], a [dict] or a [list] alike. *)
Inductive pyobj : Type :=
| VNone
| VBool (b : bool)
| VInt (n : Z)
| VStr (s : string)
| VList (items : list pyobj)
| VDict (entries : list (string * pyobj)).

Definition is_None (v : pyobj) : bool :=
  match v with VNone => true | _ => false end.

(** [isinstance(v, (dict, list))] *)
Definition is_container (v : pyobj) : bool :=
  match v with VDict _ | VList _ => true | _ => false end.

Module PyDict.

Definition t : Type := list (string * pyobj).

Fixpoint lookup (d : t) (k : string) : option pyobj :=
  match d with
  | [] => None
  | (k', v) :: d' => if String.eqb k k' then Some v else lookup d' k
  end.

(** [k in d] *)
Definition contains (d : t) (k : string) : bool :=
  match lookup d k with Some _ => true | None => false end.

(** [d.get(k)] *)
Definition get (d : t) (k : string) : pyobj :=
  match lookup d k with Some v => v | None => VNone end.

(** [d[k]] *)
Definition getitem (d : t) (k : string) : result pyobj :=
  match lookup d k with Some v => Ok v | None => Raise KeyError end.

(** [d[k] = v]: an existing key keeps its position, a new key goes last. *)
Fixpoint setitem (d : t) (k : string) (v : pyobj) : t :=
  match d with
  | [] => [(k, v)]
  | (k', v') :: d' =>
      if String.eqb k k' then (k', v) :: d' else (k', v') :: setitem d' k v
  end.

End PyDict.

Module PyList.

(** [len(l)] *)
Definition len (l : list pyobj) : N := N.of_nat (List.length l).

(** [l[idx]] for [0 <= idx < len(l)] *)
Definition getitem (l : list pyobj) (idx : N) : pyobj :=
  nth (N.to_nat idx) l VNone.

Fixpoint set_nth (l : list pyobj) (n : nat) (v : pyobj) : list pyobj :=
  match l, n with
  | [], _ => []
  | _ :: l', O => v :: l'
  | x :: l', S n' => x :: set_nth l' n' v
  end.

(** [l[idx] = v] for [0 <= idx < len(l)] *)
Definition setitem (l : list pyobj) (idx : N) (v : pyobj) : list pyobj :=
  set_nth l (N.to_nat idx) v.

End PyList.

(** The objects that the recursion limit lets pass at each call of
    the source that recurses on the depth of an object: the formatting
    of the action at line 65, the copy of the state at line 81, the
    formatting of [action['type']] at line 167 and the copy of the
    state at line 173. *)
Class interpreter : Type := {
  formats_action : pyobj -> bool;
  copies_state : pyobj -> bool;
  formats_type : pyobj -> bool;
  copies_snapshot : pyobj -> bool
}.

(** An object that is no container needs no recursion. *)
Definition passes (limit : pyobj -> bool) (obj : pyobj) : bool :=
  negb (is_container obj) || limit obj.

(** [copy.deepcopy]: on a tree of values a deep copy is an equal value
    that shares nothing with the original (values carry no identity);
    [RecursionError] for a container that the recursion limit does not
    let pass. *)
Definition deepcopy (limit : pyobj -> bool) (v : pyobj) : result pyobj :=
  if passes limit v then Ok v else Raise RecursionError.

(** The formatting of [obj] in an f-string; the text is not kept. *)
Definition py_format (limit : pyobj -> bool) (obj : pyobj) : result unit :=
  if passes limit obj then Ok tt else Raise RecursionError.

(** [obj.get(key)]: only a [dict] has the method. *)
Definition py_get (obj : pyobj) (key : string) : result pyobj :=
  match obj with
  | VDict d => Ok (PyDict.get d key)
  | _ => Raise AttributeError
  end.

(** [path.split('.')]: only a [str] has the method. *)
Definition py_split (path : pyobj) : result (list string) :=
  match path with
  | VStr s => Ok (PyStr.split s)
  | _ => Raise AttributeError
  end.

(** ** The store *)

Module RozRemembers.

Definition ACTION_TYPE_SET_STATE : string := "SET_STATE".
Definition EVENT_TYPE_STATE_CHANGED : string := "STATE_CHANGED".

(** The loop of [_get_nested_value] over the remaining [parts];
    [break] and the end of the loop both return [temp_data]. *)
Fixpoint get_loop (parts : list string) (temp_data : pyobj) : result pyobj :=
  match parts with
  | [] => Ok temp_data
  | part :: rest =>
      match temp_data with
      | VDict d =>
          let temp_data := PyDict.get d part in
          if is_None temp_data then Ok temp_data else get_loop rest temp_data
      | VList l =>
          if PyStr.isdigit part then
            match PyStr.int part with
            | None => Raise ValueError
            | Some idx =>
                (* 0 <= idx < len(temp_data); idx is never negative *)
                if (idx <? PyList.len l)%N then
                  let temp_data := PyList.getitem l idx in
                  if is_None temp_data then Ok temp_data
                  else get_loop rest temp_data
                else Ok VNone
            end
          else Ok VNone
      | _ => Ok VNone
      end
  end.

Definition _get_nested_value (path : pyobj) (current_data : pyobj)
  : result pyobj :=
  match py_split path with
  | Ok parts => get_loop parts current_data
  | Raise e => Raise e
  end.

(** The loop of [_set_nested_value] over the remaining [parts], from
    the object [temp_data].  The second component is [temp_data] as
    the loop leaves it: what the loop did inside a child is seen
    through the slot of the parent that holds the child. *)
Fixpoint set_loop (parts : list string) (value : pyobj) (temp_data : pyobj)
  : result bool * pyobj :=
  match parts with
  | [] => (Ok true, temp_data)
  | part :: rest =>
      match rest with
      | [] =>
          (* i == len(parts) - 1 *)
          match temp_data with
          | VDict d => (Ok true, VDict (PyDict.setitem d part value))
          | VList l =>
              if PyStr.isdigit part then
                match PyStr.int part with
                | None => (Raise ValueError, temp_data)
                | Some idx =>
                    if (idx <? PyList.len l)%N
                    then (Ok true, VList (PyList.setitem l idx value))
                    else (Ok false, temp_data)
                end
              else (Ok false, temp_data)
          | _ => (Ok false, temp_data)
          end
      | _ :: _ =>
          match temp_data with
          | VDict d =>
              let d :=
                if negb (PyDict.contains d part)
                   || negb (is_container (PyDict.get d part))
                then PyDict.setitem d part (VDict [])
                else d in
              match PyDict.getitem d part with
              | Raise e => (Raise e, VDict d)
              | Ok child =>
                  let (r, child') := set_loop rest value child in
                  (r, VDict (PyDict.setitem d part child'))
              end
          | VList l =>
              if PyStr.isdigit part then
                match PyStr.int part with
                | None => (Raise ValueError, temp_data)
                | Some idx =>
                    if (idx <? PyList.len l)%N then
                      let l :=
                        if negb (is_container (PyList.getitem l idx))
                        then PyList.setitem l idx (VDict [])
                        else l in
                      let (r, child') :=
                        set_loop rest value (PyList.getitem l idx) in
                      (r, VList (PyList.setitem l idx child'))
                    else (Ok false, temp_data)
                end
              else (Ok false, temp_data)
          | _ => (Ok false, temp_data)
          end
      end
  end.

(** Returns what the method returns, and [current_data] after the call. *)
Definition _set_nested_value (path : pyobj) (value : pyobj)
           (current_data : pyobj) : result bool * pyobj :=
  match py_split path with
  | Ok parts => set_loop parts value current_data
  | Raise e => (Raise e, current_data)
  end.

(** [asyncio.Queue]: the pending items and the count of items put and
    not yet marked done. *)
Record queue : Type := mkQueue {
  items : list pyobj;
  _unfinished_tasks : nat
}.

Definition put (q : queue) (item : pyobj) : queue :=
  mkQueue (items q ++ [item]) (S (_unfinished_tasks q)).

(** [task_done] raises [ValueError] when called more often than [put]. *)
Definition task_done (q : queue) : result queue :=
  match _unfinished_tasks q with
  | O => Raise ValueError
  | S n => Ok (mkQueue (items q) n)
  end.

Record store : Type := mkStore {
  _state : pyobj;
  _action_queue : queue;
  _event_queue : list pyobj
}.

(** [__init__] *)
Definition init : store := mkStore (VDict []) (mkQueue [] 0) [].

(** Statements of a method body: they read and update [self] and may
    raise; what was done to [self] before a raise stays done. *)
Definition M (A : Type) : Type := store -> result A * store.

Definition ret {A} (a : A) : M A := fun self => (Ok a, self).

Definition bind {A B} (m : M A) (k : A -> M B) : M B :=
  fun self =>
    match m self with
    | (Ok a, self') => k a self'
    | (Raise e, self') => (Raise e, self')
    end.

Definition lift {A} (r : result A) : M A := fun self => (r, self).

Notation "x <- m ;; k" := (bind m (fun x => k))
  (at level 61, m at next level, right associativity).
Notation "m ;;; k" := (bind m (fun _ => k))
  (at level 61, right associativity).

Definition read_state : M pyobj := fun self => (Ok (_state self), self).

Definition write_state (new_state : pyobj) : M unit :=
  fun self =>
    (Ok tt, mkStore new_state (_action_queue self) (_event_queue self)).

Definition event_put (event : pyobj) : M unit :=
  fun self =>
    (Ok tt,
     mkStore (_state self) (_action_queue self) (_event_queue self ++ [event])).

Definition action_task_done : M unit :=
  fun self =>
    match task_done (_action_queue self) with
    | Ok q => (Ok tt, mkStore (_state self) q (_event_queue self))
    | Raise e => (Raise e, self)
    end.

(** [action_type == self.ACTION_TYPE_SET_STATE] *)
Definition is_set_state (action_type : pyobj) : bool :=
  match action_type with
  | VStr s => String.eqb s ACTION_TYPE_SET_STATE
  | _ => false
  end.

Definition state_changed (path old_value new_value action : pyobj) : pyobj :=
  VDict [("type", VStr EVENT_TYPE_STATE_CHANGED);
         ("path", path);
         ("old_value", old_value);
         ("new_value", new_value);
         ("action_source", action)].

Section Interpreted.

Context {py : interpreter}.

(** The body of the [try] of [_action_processor], after
    [action = await self._action_queue.get()].  The log lines after
    the first format the action again, a part of it, or a [str]: they
    pass where the first one did. *)
Definition process (action : pyobj) : M unit :=
  lift (py_format formats_action action) ;;;
  action_type <- lift (py_get action "type") ;;
  if is_set_state action_type then
    path <- lift (py_get action "path") ;;
    value <- lift (py_get action "value") ;;
    if is_None path then
      action_task_done (* continue *)
    else
      current <- read_state ;;
      old_value_at_path <- lift (_get_nested_value path current) ;;
      temp_state <- lift (deepcopy copies_state current) ;;
      let (returned, temp_state) := _set_nested_value path value temp_state in
      applied_successfully <- lift returned ;;
      (if applied_successfully : bool then
         write_state temp_state ;;;
         current <- read_state ;;
         new_value <- lift (_get_nested_value path current) ;;
         event_put (state_changed path old_value_at_path new_value action)
       else ret tt) ;;;
      action_task_done
  else
    action_task_done.

Inductive step : Type :=
| Waiting                       (* suspended in [get]: the queue is empty *)
| Next (self : store)           (* the loop goes round again *)
| Crashed (e : exn) (self : store). (* an exception left the loop *)

(** One round of [while True]: [get], the [try] body and the
    [except Exception] handler.  Cancellation is not part of a run. *)
Definition iteration (self : store) : step :=
  match items (_action_queue self) with
  | [] => Waiting
  | action :: pending =>
      let q := mkQueue pending (_unfinished_tasks (_action_queue self)) in
      let self := mkStore (_state self) q (_event_queue self) in
      match process action self with
      | (Ok _, self) => Next self
      | (Raise _, self) =>
          match action_task_done self with
          | (Ok _, self) => Next self
          | (Raise e, self) => Crashed e self
          end
      end
  end.

Inductive run : Type :=
| Running (self : store)
| Stopped (e : exn) (self : store).

(** The first [rounds] rounds of the loop. *)
Fixpoint _action_processor (rounds : nat) (self : store) : run :=
  match rounds with
  | O => Running self
  | S rounds' =>
      match iteration self with
      | Waiting => Running self
      | Next self' => _action_processor rounds' self'
      | Crashed e self' => Stopped e self'
      end
  end.

(** [dispatch]: the action is queued before [action['type']] is
    evaluated for the log line. *)
Definition dispatch (action : pyobj) : M unit :=
  fun self =>
    let self :=
      mkStore (_state self) (put (_action_queue self) action)
              (_event_queue self) in
    match action with
    | VDict d =>
        match PyDict.getitem d "type" with
        | Ok action_type => (py_format formats_type action_type, self)
        | Raise e => (Raise e, self)
        end
    | _ => (Raise TypeError, self)
    end.

Definition subscribe_events (self : store) : list pyobj := _event_queue self.

Definition get_current_state (self : store) : result pyobj :=
  deepcopy copies_snapshot (_state self).

(** What [open] and [json.load] give [load_initial_state]: the parsed
    document, or the exception that the method catches. *)
Inductive read_result : Type :=
| Parsed (doc : pyobj)
| FileNotFoundError
| JSONDecodeError
| OtherException.

Definition load_initial_state (read : read_result) (self : store) : store :=
  let loaded :=
    match read with
    | Parsed doc => doc
    | FileNotFoundError => VDict []
    | JSONDecodeError => VDict []
    | OtherException => VDict []
    end in
  mkStore loaded (_action_queue self) (_event_queue self).

(** The task of [self._processing_task]: not done, done since
    [stop_processing] cancelled it, or done because an exception left
    the loop. *)
Inductive task : Type :=
| Pending
| Finished
| Failed (e : exn).

(** [task.done()] *)
Definition done (t : task) : bool :=
  match t with Pending => false | _ => true end.

(** An instance: the store and [self._processing_task]. *)
Record instance : Type := mkInstance {
  this : store;
  _processing_task : option task
}.

(** [RozRemembers(path)] *)
Definition new : instance := mkInstance init None.

Definition start_processing (self : instance) : instance :=
  match _processing_task self with
  | None => mkInstance (this self) (Some Pending)
  | Some t =>
      if done t then mkInstance (this self) (Some Pending)
      else self (* warning: already running *)
  end.

(** [cancel] reaches the loop where it is suspended, in [get], before
    it takes another action; the loop leaves by [break] and the awaited
    task is done. *)
Definition stop_processing (self : instance) : instance :=
  match _processing_task self with
  | Some t =>
      if negb (done t) then mkInstance (this self) (Some Finished)
      else self
  | None => self
  end.

(** One round of the loop of the task, if there is a task that is not
    done. *)
Definition task_round (self : instance) : instance :=
  match _processing_task self with
  | Some Pending =>
      match iteration (this self) with
      | Waiting => self
      | Next s => mkInstance s (Some Pending)
      | Crashed e s => mkInstance s (Some (Failed e))
      end
  | _ => self
  end.

(** What happens to an instance: the calls of its methods by the code
    around it, inside a running event loop and one call after the
    other, and the rounds of its loop in between. *)
Inductive call : Type :=
| Load (read : read_result)
| Start
| Stop
| Dispatch (action : pyobj)
| Round.

Definition after_call (self : instance) (c : call) : instance :=
  match c with
  | Load read =>
      mkInstance (load_initial_state read (this self)) (_processing_task self)
  | Start => start_processing self
  | Stop => stop_processing self
  | Dispatch action =>
      mkInstance (snd (dispatch action (this self))) (_processing_task self)
  | Round => task_round self
  end.

Definition after_calls (cs : list call) (self : instance) : instance :=
  fold_left after_call cs self.

End Interpreted.

End RozRemembers.

(** ** Objects used to state the properties *)

(** The object that holds [v] under the chain of keys [parts]:
    [nested ["b"; "c"] v] is [{"b": {"c": v}}]. *)
Fixpoint nested (parts : list string) (v : pyobj) : pyobj :=
  match parts with
  | [] => v
  | part :: rest => VDict [(part, nested rest v)]
  end.

(** The test of lines 148 and 154 of the source: the slot [part] of
    [temp_data] can be entered, and what it holds (nothing, for a key
    that a [dict] lacks) is not a container. *)
Definition vivifies (temp_data : pyobj) (part : string) : bool :=
  match temp_data with
  | VDict d =>
      negb (PyDict.contains d part) || negb (is_container (PyDict.get d part))
  | VList l =>
      PyStr.isdigit part &&
      match PyStr.int part with
      | Some idx =>
          (idx <? PyList.len l)%N && negb (is_container (PyList.getitem l idx))
      | None => false
      end
  | _ => false
  end.

(** [part] addresses a slot of [temp_data]: any key of a [dict] (the
    slot of a missing key is created on assignment), an index literal
    within bounds of a [list]. *)
Definition has_slot (temp_data : pyobj) (part : string) : bool :=
  match temp_data with
  | VDict _ => true
  | VList l =>
      PyStr.isdigit part &&
      match PyStr.int part with
      | Some idx => (idx <? PyList.len l)%N
      | None => false
      end
  | _ => false
  end.

(** The container that the slot [part] of [temp_data] holds, if it
    holds one: the object both loops move to. *)
Definition enter (temp_data : pyobj) (part : string) : option pyobj :=
  match temp_data with
  | VDict d =>
      let child := PyDict.get d part in
      if is_container child then Some child else None
  | VList l =>
      if PyStr.isdigit part then
        match PyStr.int part with
        | Some idx =>
            if (idx <? PyList.len l)%N then
              let child := PyList.getitem l idx in
              if is_container child then Some child else None
            else None
        | None => None
        end
      else None
  | _ => None
  end.

(** [temp_data] after [temp_data[part] = child] (for a [list], after
    [temp_data[int(part)] = child]). *)
Definition plug (temp_data : pyobj) (part : string) (child : pyobj) : pyobj :=
  match temp_data with
  | VDict d => VDict (PyDict.setitem d part child)
  | VList l =>
      match PyStr.int part with
      | Some idx => VList (PyList.setitem l idx child)
      | None => temp_data
      end
  | _ => temp_data
  end.

(** What the write returns or raises at an object where [part]
    addresses no slot (lines 136 to 145 and 151 to 162). *)
Definition refused (temp_data : pyobj) (part : string) : result bool :=
  match temp_data with
  | VList _ =>
      if PyStr.isdigit part then
        match PyStr.int part with
        | None => Raise ValueError
        | Some _ => Ok false
        end
      else Ok false
  | _ => Ok false
  end.

(** Two index literals that denote the same index. *)
Definition same_index (part part' : string) : bool :=
  PyStr.isdigit part && PyStr.isdigit part' &&
  match PyStr.int part, PyStr.int part' with
  | Some idx, Some idx' => (idx =? idx')%N
  | _, _ => false
  end.

(** [part] and [part'] address the same slot of [temp_data]: the same
    key of a [dict], the same index of a [list]. *)
Definition same_slot (temp_data : pyobj) (part part' : string) : bool :=
  match temp_data with
  | VList _ => same_index part part'
  | _ => String.eqb part part'
  end.

(** The reads that stop at the slot [part] of [temp_data] with [None]:
    a key that a [dict] lacks, a segment that is not an index literal
    or an index out of bounds on a [list], any segment on an object
    that is no container ([None] among them). *)
Definition short_circuits (temp_data : pyobj) (part : string) : bool :=
  match temp_data with
  | VDict d => negb (PyDict.contains d part)
  | VList l =>
      negb (PyStr.isdigit part) ||
      match PyStr.int part with
      | Some idx => (PyList.len l <=? idx)%N
      | None => false
      end
  | _ => true
  end.

(** The levels of nesting of an object. *)
Fixpoint depth (obj : pyobj) : nat :=
  match obj with
  | VList l => S (fold_right (fun item n => Nat.max (depth item) n) 0 l)%nat
  | VDict d =>
      S (fold_right
           (fun (entry : string * pyobj) n =>
              let (_, v) := entry in Nat.max (depth v) n)
           0 d)%nat
  | _ => 0%nat
  end.

(** An interpreter that copies objects of up to [levels] levels and
    formats objects of up to twice as many, about what CPython does
    with the frames of its recursion limit. *)
Definition room (levels : nat) : interpreter :=
  {| formats_action := fun obj => (depth obj <=? 2 * levels)%nat;
     copies_state := fun obj => (depth obj <=? levels)%nat;
     formats_type := fun obj => (depth obj <=? 2 * levels)%nat;
     copies_snapshot := fun obj => (depth obj <=? levels)%nat |}.

(** The action is one that [process] applies to the document [doc]:
    a [dict] that the interpreter can format, of type [SET_STATE], with
    a [str] under ["path"] at which the write of what it has under
    ["value"] returns [True], on a document that the interpreter can
    copy. *)
Definition applies {py : interpreter} (doc action : pyobj) : bool :=
  match action with
  | VDict d =>
      passes formats_action action &&
      RozRemembers.is_set_state (PyDict.get d "type") &&
      match PyDict.get d "path" with
      | VStr p =>
          passes copies_state doc &&
          match fst (RozRemembers._set_nested_value
                       (VStr p) (PyDict.get d "value") doc) with
          | Ok true => true
          | _ => false
          end
      | _ => false
      end
  | _ => false
  end.

(** The actions that the spec lists as failing to apply on [doc]: a
    type other than [SET_STATE], no ["path"], or a write that returns
    [False]. *)
Definition fails_to_apply (doc action : pyobj) : bool :=
  match action with
  | VDict d =>
      if RozRemembers.is_set_state (PyDict.get d "type") then
        match PyDict.get d "path" with
        | VNone => true
        | VStr p =>
            match fst (RozRemembers._set_nested_value
                         (VStr p) (PyDict.get d "value") doc) with
            | Ok false => true
            | _ => false
            end
        | _ => false
        end
      else true
  | _ => false
  end.

(** The document after the write that [action] asks for. *)
Definition written (doc action : pyobj) : pyobj :=
  match action with
  | VDict d =>
      snd (RozRemembers._set_nested_value
             (PyDict.get d "path") (PyDict.get d "value") doc)
  | _ => doc
  end.

(** Every action of the sequence applies to the document that the
    actions before it have produced. *)
Fixpoint valid_sequence {py : interpreter} (doc : pyobj)
         (actions : list pyobj) : bool :=
  match actions with
  | [] => true
  | action :: later =>
      applies doc action && valid_sequence (written doc action) later
  end.

(** [event] is the [STATE_CHANGED] event of [action], with the values
    read at the path of the action in the documents [before] and
    [after]. *)
Definition reports (event action before after : pyobj) : Prop :=
  exists p old_value new_value,
    py_get action "path" = Ok (VStr p) /\
    event = RozRemembers.state_changed (VStr p) old_value new_value action /\
    RozRemembers._get_nested_value (VStr p) before = Ok old_value /\
    RozRemembers._get_nested_value (VStr p) after = Ok new_value.

(** Every pending item of the queue was [put] and is not marked done:
    what [asyncio.Queue] maintains between [put], [get] and
    [task_done]. *)
Definition consistent (q : RozRemembers.queue) : bool :=
  (List.length (RozRemembers.items q) <=? RozRemembers._unfinished_tasks q)%nat.

(** [after] has the shape of [before]: a [dict] is still a [dict]
    with the keys of [before] first and in their order, a [list] is
    still a [list] of the same length, any other object is the same
    object. *)
Definition keeps_shape (before after : pyobj) : Prop :=
  match before, after with
  | VDict d, VDict d' => exists added, map fst d' = map fst d ++ added
  | VList l, VList l' => List.length l' = List.length l
  | _, _ => after = before
  end.

(** The store that a run of the loop leaves. *)
Definition store_of (r : RozRemembers.run) : RozRemembers.store :=
  match r with
  | RozRemembers.Running self => self
  | RozRemembers.Stopped _ self => self
  end.

(** The event of [action] on the document [doc]. *)
Definition event_of (doc action : pyobj) : pyobj :=
  match action with
  | VDict d =>
      let path := PyDict.get d "path" in
      RozRemembers.state_changed path
        match RozRemembers._get_nested_value path doc with
        | Ok old_value => old_value
        | Raise _ => VNone
        end
        (PyDict.get d "value") action
  | _ => VNone
  end.

(** A second description of what one action does, to compare the loop
    with: on a document and the events emitted so far, an action that
    applies writes its value and adds its event, any other action does
    nothing. *)
Definition replay_action {py : interpreter} (st : pyobj * list pyobj)
           (action : pyobj) : pyobj * list pyobj :=
  if applies (fst st) action
  then (written (fst st) action, snd st ++ [event_of (fst st) action])
  else st.

Definition replay {py : interpreter} (actions : list pyobj)
           (st : pyobj * list pyobj) : pyobj * list pyobj :=
  fold_left replay_action actions st.

(** The actions of the [dispatch] calls, in the order of the calls. *)
Fixpoint dispatched (cs : list RozRemembers.call) : list pyobj :=
  match cs with
  | [] => []
  | RozRemembers.Dispatch action :: cs' => action :: dispatched cs'
  | _ :: cs' => dispatched cs'
  end.

(** No call of [load_initial_state] among the calls. *)
Definition no_load (cs : list RozRemembers.call) : bool :=
  forallb (fun c => match c with RozRemembers.Load _ => false | _ => true end)
          cs.

(** The last of the calls of [start_processing] and [stop_processing]
    is a call of [start_processing]. *)
Definition started_last (cs : list RozRemembers.call) : bool :=
  fold_left
    (fun started c =>
       match c with
       | RozRemembers.Start => true
       | RozRemembers.Stop => false
       | _ => started
       end)
    cs false.

(** The task of the instance is not done. *)
Definition is_pending (self : RozRemembers.instance) : bool :=
  match RozRemembers._processing_task self with
  | Some RozRemembers.Pending => true
  | _ => false
  end.

(** What every instance reached from a new one satisfies: the queue
    counts exactly its pending items as unfinished, and no exception
    has left the loop. *)
Definition sound (self : RozRemembers.instance) : Prop :=
  RozRemembers._unfinished_tasks (RozRemembers._action_queue (RozRemembers.this self)) =
  List.length (RozRemembers.items (RozRemembers._action_queue (RozRemembers.this self))) /\
  forall e, RozRemembers._processing_task self <> Some (RozRemembers.Failed e).

(** ** Dictionaries and lists *)

Section Containers.

Import PyDict PyList.

Lemma lookup_setitem_same (d : PyDict.t) k v :
  lookup (PyDict.setitem d k v) k = Some v.
Proof.
  induction d as [|[k' v'] d IH]; simpl.
  - now rewrite String.eqb_refl.
  - destruct (String.eqb k k') eqn:E; simpl; rewrite E; auto.
Qed.

Lemma lookup_setitem_other (d : PyDict.t) k k' v :
  k <> k' -> lookup (PyDict.setitem d k v) k' = lookup d k'.
Proof.
  intros Hk. induction d as [|[k0 v0] d IH]; simpl.
  - destruct (String.eqb k' k) eqn:E; auto.
    apply String.eqb_eq in E. congruence.
  - destruct (String.eqb k k0) eqn:E; simpl.
    + apply String.eqb_eq in E. subst k0.
      destruct (String.eqb k' k) eqn:E'; auto.
      apply String.eqb_eq in E'. congruence.
    + now rewrite IH.
Qed.

Lemma setitem_lookup_id (d : PyDict.t) k v :
  lookup d k = Some v -> PyDict.setitem d k v = d.
Proof.
  induction d as [|[k' v'] d IH]; simpl; [discriminate|].
  destruct (String.eqb k k') eqn:E; intros H.
  - now inversion H.
  - now rewrite IH.
Qed.

Lemma setitem_setitem (d : PyDict.t) k v w :
  PyDict.setitem (PyDict.setitem d k v) k w = PyDict.setitem d k w.
Proof.
  induction d as [|[k' v'] d IH]; simpl.
  - now rewrite String.eqb_refl.
  - destruct (String.eqb k k') eqn:E; simpl; rewrite E; auto.
    now rewrite IH.
Qed.

Lemma get_setitem_same (d : PyDict.t) k v : get (PyDict.setitem d k v) k = v.
Proof. unfold get. now rewrite lookup_setitem_same. Qed.

Lemma get_setitem_other (d : PyDict.t) k k' v :
  k <> k' -> get (PyDict.setitem d k v) k' = get d k'.
Proof. intros H. unfold get. now rewrite lookup_setitem_other. Qed.

Lemma getitem_setitem_same (d : PyDict.t) k v :
  PyDict.getitem (PyDict.setitem d k v) k = Ok v.
Proof. unfold PyDict.getitem. now rewrite lookup_setitem_same. Qed.

Lemma set_nth_length l n v : List.length (set_nth l n v) = List.length l.
Proof.
  revert n. induction l as [|x l IH]; intros [|n]; simpl; auto.
Qed.

Lemma nth_set_nth_same l n v :
  (n < List.length l)%nat -> nth n (set_nth l n v) VNone = v.
Proof.
  revert n. induction l as [|x l IH]; intros [|n]; simpl; intros H;
    try lia; auto.
  apply IH. lia.
Qed.

Lemma nth_set_nth_other l n m v :
  n <> m -> nth m (set_nth l n v) VNone = nth m l VNone.
Proof.
  revert n m. induction l as [|x l IH]; intros [|n] [|m] H; simpl; auto;
    try congruence.
Qed.

Lemma set_nth_nth_id l n : set_nth l n (nth n l VNone) = l.
Proof.
  revert n. induction l as [|x l IH]; intros [|n]; simpl; auto.
  now rewrite IH.
Qed.

Lemma set_nth_set_nth l n v w : set_nth (set_nth l n v) n w = set_nth l n w.
Proof.
  revert n. induction l as [|x l IH]; intros [|n]; simpl; auto.
  now rewrite IH.
Qed.

Lemma len_setitem l idx v : len (PyList.setitem l idx v) = len l.
Proof. unfold len, PyList.setitem. now rewrite set_nth_length. Qed.

Lemma list_getitem_setitem_same l idx v :
  (idx <? len l)%N = true ->
  PyList.getitem (PyList.setitem l idx v) idx = v.
Proof.
  unfold len, PyList.getitem, PyList.setitem. intros H.
  apply N.ltb_lt in H. apply nth_set_nth_same. lia.
Qed.

Lemma list_getitem_setitem_other l idx idx' v :
  idx <> idx' ->
  PyList.getitem (PyList.setitem l idx v) idx' = PyList.getitem l idx'.
Proof.
  unfold PyList.getitem, PyList.setitem. intros H.
  apply nth_set_nth_other. lia.
Qed.

Lemma list_setitem_getitem_id l idx :
  PyList.setitem l idx (PyList.getitem l idx) = l.
Proof. apply set_nth_nth_id. Qed.

Lemma list_setitem_setitem l idx v w :
  PyList.setitem (PyList.setitem l idx v) idx w = PyList.setitem l idx w.
Proof. apply set_nth_set_nth. Qed.

End Containers.

Lemma split_nonempty (s : string) : PyStr.split s <> [].
Proof.
  induction s as [|c s IH]; simpl; [discriminate|].
  destruct (Ascii.eqb c "."%char); [discriminate|].
  destruct (PyStr.split s); discriminate.
Qed.

(** ** The path engine *)

Import RozRemembers.

Section PathEngine.

Implicit Types (parts pre rest : list string) (part : string).
Implicit Types (v node doc : pyobj).

Lemma set_loop_dict_more part part2 rest v d :
  set_loop (part :: part2 :: rest) v (VDict d) =
  let d1 :=
    if negb (PyDict.contains d part) || negb (is_container (PyDict.get d part))
    then PyDict.setitem d part (VDict []) else d in
  match PyDict.getitem d1 part with
  | Raise e => (Raise e, VDict d1)
  | Ok child =>
      let (r, child') := set_loop (part2 :: rest) v child in
      (r, VDict (PyDict.setitem d1 part child'))
  end.
Proof. reflexivity. Qed.

Lemma set_loop_list_more part part2 rest v l :
  set_loop (part :: part2 :: rest) v (VList l) =
  if PyStr.isdigit part then
    match PyStr.int part with
    | None => (Raise ValueError, VList l)
    | Some idx =>
        if (idx <? PyList.len l)%N then
          let l1 :=
            if negb (is_container (PyList.getitem l idx))
            then PyList.setitem l idx (VDict []) else l in
          let (r, child') :=
            set_loop (part2 :: rest) v (PyList.getitem l1 idx) in
          (r, VList (PyList.setitem l1 idx child'))
        else (Ok false, VList l)
    end
  else (Ok false, VList l).
Proof. reflexivity. Qed.

Lemma set_loop_scalar part rest v node :
  is_container node = false ->
  set_loop (part :: rest) v node = (Ok false, node).
Proof. destruct node, rest; simpl; intros H; congruence. Qed.

Lemma get_loop_scalar part rest node :
  is_container node = false -> get_loop (part :: rest) node = Ok VNone.
Proof. destruct node; simpl; intros H; congruence. Qed.

(** A [dict] that has the key holds what [get] returns. *)
Lemma contains_getitem (d : PyDict.t) part :
  PyDict.contains d part = true ->
  PyDict.getitem d part = Ok (PyDict.get d part).
Proof.
  unfold PyDict.contains, PyDict.getitem, PyDict.get.
  destruct (PyDict.lookup d part); [reflexivity|discriminate].
Qed.

Lemma contains_setitem_get (d : PyDict.t) part :
  PyDict.contains d part = true ->
  PyDict.setitem d part (PyDict.get d part) = d.
Proof.
  unfold PyDict.contains, PyDict.get. intros H.
  destruct (PyDict.lookup d part) eqn:E; [|discriminate].
  now apply setitem_lookup_id.
Qed.

(** Writing into a fresh empty [dict] always succeeds. *)
Lemma set_loop_fresh parts v :
  parts <> [] -> set_loop parts v (VDict []) = (Ok true, nested parts v).
Proof.
  induction parts as [|part rest IH]; [congruence|]. intros _.
  destruct rest as [|part2 rest]; [reflexivity|].
  rewrite set_loop_dict_more. cbn [PyDict.contains PyDict.lookup negb orb].
  cbv zeta. rewrite getitem_setitem_same, IH by discriminate.
  simpl. now rewrite String.eqb_refl.
Qed.

(** Once a slot was replaced by a fresh object the write succeeds, and
    all it leaves in the slot is the rest of the path. *)
Lemma set_loop_vivifies part rest v node :
  vivifies node part = true ->
  set_loop (part :: rest) v node = set_loop [part] (nested rest v) node
  /\ fst (set_loop (part :: rest) v node) = Ok true.
Proof.
  intros Hv. destruct rest as [|part2 rest].
  - split; [reflexivity|].
    destruct node as [| | | |l|d]; simpl in *; try discriminate; auto.
    destruct (PyStr.isdigit part); [|discriminate].
    destruct (PyStr.int part) as [idx|]; [|discriminate].
    destruct (idx <? PyList.len l)%N; [reflexivity|discriminate].
  - destruct node as [| | | |l|d]; simpl in Hv; try discriminate.
    + rewrite set_loop_list_more. simpl set_loop at 2.
      destruct (PyStr.isdigit part); [|discriminate].
      destruct (PyStr.int part) as [idx|]; [|discriminate].
      destruct (idx <? PyList.len l)%N eqn:Hidx; [|discriminate].
      simpl in Hv. rewrite Hv. cbv zeta.
      rewrite list_getitem_setitem_same by assumption.
      rewrite set_loop_fresh by discriminate.
      now rewrite list_setitem_setitem.
    + rewrite set_loop_dict_more, Hv. cbv zeta.
      rewrite getitem_setitem_same, set_loop_fresh by discriminate.
      now rewrite setitem_setitem.
Qed.

Lemma get_loop_None rest : get_loop rest VNone = Ok VNone.
Proof. now destruct rest. Qed.

(** The [break] on [None] returns what the remaining rounds would. *)
Lemma get_loop_break rest node :
  (if is_None node then Ok node else get_loop rest node) = get_loop rest node.
Proof.
  destruct node; simpl; auto. now rewrite get_loop_None.
Qed.

Lemma get_loop_dict part rest d :
  get_loop (part :: rest) (VDict d) = get_loop rest (PyDict.get d part).
Proof. simpl. apply get_loop_break. Qed.

Lemma get_loop_list part rest l idx :
  PyStr.isdigit part = true -> PyStr.int part = Some idx ->
  (idx <? PyList.len l)%N = true ->
  get_loop (part :: rest) (VList l) = get_loop rest (PyList.getitem l idx).
Proof. intros H1 H2 H3. simpl. rewrite H1, H2, H3. apply get_loop_break. Qed.

Lemma get_loop_fresh part rest : get_loop (part :: rest) (VDict []) = Ok VNone.
Proof. reflexivity. Qed.

Lemma get_loop_app pre rest doc node :
  get_loop pre doc = Ok node ->
  get_loop (pre ++ rest) doc = get_loop rest node.
Proof.
  revert doc. induction pre as [|part pre IH]; intros doc H.
  - simpl in H. now inversion H.
  - assert (Hnone : Ok VNone = Ok node -> Ok VNone = get_loop rest node)
      by (intros E; inversion E; symmetry; apply get_loop_None).
    destruct doc as [| | | |l|d]; simpl in H |- *; auto.
    + destruct (PyStr.isdigit part); auto.
      destruct (PyStr.int part) as [idx|]; [|discriminate H].
      destruct (idx <? PyList.len l)%N; auto.
      rewrite get_loop_break in *. auto.
    + rewrite get_loop_break in *. auto.
Qed.

Lemma enter_has_slot node part child :
  enter node part = Some child -> has_slot node part = true.
Proof.
  destruct node as [| | | |l|d]; simpl; try discriminate; auto.
  destruct (PyStr.isdigit part); [|discriminate].
  destruct (PyStr.int part) as [idx|]; [|discriminate].
  now destruct (idx <? PyList.len l)%N.
Qed.

Lemma enter_container node part child :
  enter node part = Some child -> is_container child = true.
Proof.
  destruct node as [| | | |l|d]; simpl; try discriminate.
  - destruct (PyStr.isdigit part); [|discriminate].
    destruct (PyStr.int part) as [idx|]; [|discriminate].
    destruct (idx <? PyList.len l)%N; [|discriminate].
    destruct (is_container (PyList.getitem l idx)) eqn:E; congruence.
  - destruct (is_container (PyDict.get d part)) eqn:E; congruence.
Qed.


(** A slot holds a container or is one that the write replaces. *)
Lemma has_slot_cases node part :
  has_slot node part = true ->
  (exists child, enter node part = Some child) \/ vivifies node part = true.
Proof.
  destruct node as [| | | |l|d]; simpl; try discriminate.
  - destruct (PyStr.isdigit part); [|discriminate].
    destruct (PyStr.int part) as [idx|]; [|discriminate].
    simpl. intros H. rewrite H. simpl.
    destruct (is_container (PyList.getitem l idx)); eauto.
  - intros _. destruct (is_container (PyDict.get d part)) eqn:E; eauto.
    right. simpl. apply orb_true_r.
Qed.

Lemma get_loop_enter node part rest child :
  enter node part = Some child ->
  get_loop (part :: rest) node = get_loop rest child.
Proof.
  destruct node as [| | | |l|d]; simpl; try discriminate.
  - destruct (PyStr.isdigit part); [|discriminate].
    destruct (PyStr.int part) as [idx|]; [|discriminate].
    destruct (idx <? PyList.len l)%N; [|discriminate].
    destruct (is_container (PyList.getitem l idx)); [|discriminate].
    intros H; inversion H. apply get_loop_break.
  - destruct (is_container (PyDict.get d part)); [|discriminate].
    intros H; inversion H. apply get_loop_break.
Qed.

Lemma get_loop_has_slot node part :
  has_slot node part = true ->
  exists held, forall rest, get_loop (part :: rest) node = get_loop rest held.
Proof.
  intros H. destruct node as [| | | |l|d]; simpl in H; try discriminate.
  - destruct (PyStr.isdigit part) eqn:H1; [|discriminate].
    destruct (PyStr.int part) as [idx|] eqn:H2; [|discriminate].
    simpl in H. exists (PyList.getitem l idx). intros rest.
    now apply get_loop_list.
  - exists (PyDict.get d part). intros rest. apply get_loop_dict.
Qed.

(** Reading through a slot whose content the write would replace. *)
Lemma get_loop_vivifies_slot node part :
  vivifies node part = true ->
  exists held,
    is_container held = false /\
    forall rest, get_loop (part :: rest) node = get_loop rest held.
Proof.
  intros H. destruct node as [| | | |l|d]; simpl in H; try discriminate.
  - destruct (PyStr.isdigit part) eqn:H1; [|discriminate].
    destruct (PyStr.int part) as [idx|] eqn:H2; [|discriminate].
    destruct (idx <? PyList.len l)%N eqn:H3; [|discriminate].
    simpl in H. apply negb_true_iff in H.
    exists (PyList.getitem l idx). split; [assumption|].
    intros rest. now apply get_loop_list.
  - exists (PyDict.get d part). split; [|intros rest; apply get_loop_dict].
    unfold PyDict.contains, PyDict.get in *.
    destruct (PyDict.lookup d part); simpl in *; auto.
    now apply negb_true_iff in H.
Qed.

Lemma get_loop_vivifies node part part2 rest :
  vivifies node part = true ->
  get_loop (part :: part2 :: rest) node = Ok VNone.
Proof.
  intros H. destruct (get_loop_vivifies_slot _ _ H) as (held & Hc & ->).
  now apply get_loop_scalar.
Qed.

Lemma get_loop_no_slot node part rest :
  has_slot node part = false ->
  get_loop (part :: rest) node =
  match refused node part with Ok _ => Ok VNone | Raise e => Raise e end.
Proof.
  intros H. destruct node as [| | | |l|d]; simpl in *; try discriminate;
    auto.
  destruct (PyStr.isdigit part); auto.
  destruct (PyStr.int part) as [idx|]; auto.
  simpl in H. now rewrite H.
Qed.

Lemma get_loop_plug node part rest child :
  has_slot node part = true ->
  get_loop (part :: rest) (plug node part child) = get_loop rest child.
Proof.
  destruct node as [| | | |l|d]; simpl; try discriminate.
  - destruct (PyStr.isdigit part); [|discriminate].
    destruct (PyStr.int part) as [idx|]; [|discriminate].
    simpl. intros H. rewrite len_setitem, H.
    rewrite list_getitem_setitem_same by assumption.
    apply get_loop_break.
  - intros _. rewrite get_setitem_same. apply get_loop_break.
Qed.

(** The write moves into a container that its slot holds. *)
Lemma set_loop_enter node part part2 rest v child :
  enter node part = Some child ->
  set_loop (part :: part2 :: rest) v node =
  let (r, child') := set_loop (part2 :: rest) v child in
  (r, plug node part child').
Proof.
  destruct node as [| | | |l|d]; try discriminate.
  - rewrite set_loop_list_more. simpl.
    destruct (PyStr.isdigit part); [|discriminate].
    destruct (PyStr.int part) as [idx|]; [|discriminate].
    destruct (idx <? PyList.len l)%N; [|discriminate].
    destruct (is_container (PyList.getitem l idx)); [|discriminate].
    intros H; inversion H. reflexivity.
  - rewrite set_loop_dict_more. simpl enter.
    destruct (is_container (PyDict.get d part)) eqn:E; [|discriminate].
    intros H; inversion H. subst child.
    assert (Hc : PyDict.contains d part = true).
    { unfold PyDict.contains, PyDict.get in *.
      destruct (PyDict.lookup d part); [reflexivity|discriminate]. }
    rewrite Hc. simpl. now rewrite contains_getitem.
Qed.

Lemma set_loop_no_slot part rest v node :
  has_slot node part = false ->
  set_loop (part :: rest) v node = (refused node part, node).
Proof.
  intros Hs. destruct node as [| | | |l|d]; try discriminate;
    try (now destruct rest).
  simpl in Hs. destruct rest as [|part2 rest];
    [simpl|rewrite set_loop_list_more]; simpl refused;
    destruct (PyStr.isdigit part); auto;
    destruct (PyStr.int part) as [idx|]; auto;
    simpl in Hs; now rewrite Hs.
Qed.

Lemma set_loop_last part v node :
  set_loop [part] v node =
  if has_slot node part then (Ok true, plug node part v)
  else (refused node part, node).
Proof.
  destruct (has_slot node part) eqn:Hs; [|now apply set_loop_no_slot].
  destruct node as [| | | |l|d]; simpl in *; try discriminate; auto.
  destruct (PyStr.isdigit part); [|discriminate].
  destruct (PyStr.int part) as [idx|]; [|discriminate].
  simpl in Hs. now rewrite Hs.
Qed.

Lemma refused_not_True node part : refused node part <> Ok true.
Proof.
  destruct node; simpl; try discriminate.
  destruct (PyStr.isdigit part); [|discriminate].
  destruct (PyStr.int part); discriminate.
Qed.

(** What a successful write did at the object it started from. *)
Lemma set_loop_inv part rest v node node' :
  set_loop (part :: rest) v node = (Ok true, node') ->
  has_slot node part = true /\
  exists c,
    node' = plug node part c /\
    ((rest = [] /\ c = v) \/
     (rest <> [] /\
      exists child,
        (enter node part = Some child \/
         (vivifies node part = true /\ child = VDict [])) /\
        set_loop rest v child = (Ok true, c))).
Proof.
  intros H.
  assert (Hs : has_slot node part = true).
  { destruct (has_slot node part) eqn:Hs; [reflexivity|].
    rewrite set_loop_no_slot in H by assumption.
    inversion H as [[E E']]. now apply refused_not_True in E. }
  split; [assumption|].
  destruct rest as [|part2 rest].
  - rewrite set_loop_last, Hs in H. inversion H. eauto.
  - destruct (has_slot_cases _ _ Hs) as [[child He]|Hv].
    + rewrite (set_loop_enter _ _ _ _ _ _ He) in H.
      destruct (set_loop (part2 :: rest) v child) as [r c] eqn:E.
      inversion H; subst. exists c. split; [reflexivity|].
      right. split; [discriminate|]. eauto.
    + destruct (set_loop_vivifies part (part2 :: rest) v node Hv) as [E _].
      rewrite E, set_loop_last, Hs in H. inversion H.
      exists (nested (part2 :: rest) v). split; [reflexivity|].
      right. split; [discriminate|]. exists (VDict []). split; [auto|].
      now apply set_loop_fresh.
Qed.

(** A write that does not return [True] has not touched its target. *)
Lemma set_loop_unchanged parts v node r node' :
  set_loop parts v node = (r, node') -> r <> Ok true -> node' = node.
Proof.
  revert node r node'.
  induction parts as [|part rest IH]; intros node r node' H Hr.
  - simpl in H. congruence.
  - destruct (vivifies node part) eqn:Hv.
    + destruct (set_loop_vivifies part rest v node Hv) as [_ Hok].
      rewrite H in Hok. simpl in Hok. congruence.
    + destruct rest as [|part2 rest].
      * destruct node as [| | | |l|d]; simpl in H; try congruence.
        destruct (PyStr.isdigit part); [|congruence].
        destruct (PyStr.int part) as [idx|]; [|congruence].
        destruct (idx <? PyList.len l)%N; congruence.
      * destruct node as [| | | |l|d]; try (simpl in H; congruence).
        -- rewrite set_loop_list_more in H. simpl in Hv.
           destruct (PyStr.isdigit part); [|congruence].
           destruct (PyStr.int part) as [idx|]; [|congruence].
           destruct (idx <? PyList.len l)%N; [|congruence].
           simpl in Hv. rewrite Hv in H. cbv zeta in H.
           destruct (set_loop (part2 :: rest) v (PyList.getitem l idx))
             as [r1 c1] eqn:E.
           inversion H; subst r1 node'.
           rewrite (IH _ _ _ E Hr). now rewrite list_setitem_getitem_id.
        -- rewrite set_loop_dict_more in H. simpl in Hv. rewrite Hv in H.
           cbv zeta in H. apply orb_false_elim in Hv as [Hc _].
           apply negb_false_iff in Hc.
           rewrite (contains_getitem _ _ Hc) in H.
           destruct (set_loop (part2 :: rest) v (PyDict.get d part))
             as [r1 c1] eqn:E.
           inversion H; subst r1 node'.
           rewrite (IH _ _ _ E Hr). now rewrite contains_setitem_get.
Qed.

(** The write succeeds or fails by the path and the target alone. *)
Lemma set_loop_any_value parts v w node :
  fst (set_loop parts v node) = fst (set_loop parts w node).
Proof.
  revert node. induction parts as [|part rest IH]; intros node; auto.
  destruct (has_slot node part) eqn:Hs.
  - destruct rest as [|part2 rest].
    + now rewrite !set_loop_last, Hs.
    + destruct (has_slot_cases _ _ Hs) as [[child He]|Hv].
      * rewrite !(set_loop_enter _ _ _ _ _ _ He).
        specialize (IH child).
        destruct (set_loop (part2 :: rest) v child),
                 (set_loop (part2 :: rest) w child). exact IH.
      * destruct (set_loop_vivifies part (part2 :: rest) v node Hv) as [_ ->].
        now destruct (set_loop_vivifies part (part2 :: rest) w node Hv)
          as [_ ->].
  - now rewrite !set_loop_no_slot.
Qed.

(** Reading back the path of a successful write. *)
Lemma get_after_set parts v node node' :
  parts <> [] ->
  set_loop parts v node = (Ok true, node') ->
  get_loop parts node' = Ok v.
Proof.
  revert node node'.
  induction parts as [|part rest IH]; intros node node' Hne H;
    [congruence|].
  apply set_loop_inv in H as (Hs & c & -> & Hc).
  rewrite get_loop_plug by assumption.
  destruct Hc as [[-> ->]|(Hrest & child & _ & Hset)]; [reflexivity|].
  now apply (IH child).
Qed.

(** Where the write returns, the read of the same path returns. *)
Lemma set_returns_get_returns parts v node b :
  fst (set_loop parts v node) = Ok b ->
  exists old_value, get_loop parts node = Ok old_value.
Proof.
  revert node. induction parts as [|part rest IH]; intros node H;
    [simpl; eauto|].
  destruct (has_slot node part) eqn:Hs.
  - destruct rest as [|part2 rest].
    + destruct (get_loop_has_slot _ _ Hs) as [held ->]. simpl. eauto.
    + destruct (has_slot_cases _ _ Hs) as [[child He]|Hv].
      * rewrite (set_loop_enter _ _ _ _ _ _ He) in H.
        rewrite (get_loop_enter _ _ _ _ He). apply IH.
        now destruct (set_loop (part2 :: rest) v child).
      * rewrite get_loop_vivifies by assumption. eauto.
  - rewrite set_loop_no_slot in H by assumption. simpl in H.
    rewrite get_loop_no_slot, H by assumption. eauto.
Qed.


Lemma get_loop_plug_other node part part' c rest' :
  has_slot node part = true ->
  same_slot (plug node part c) part part' = false ->
  get_loop (part' :: rest') (plug node part c) = get_loop (part' :: rest') node.
Proof.
  intros Hs Hd. destruct node as [| | | |l|d]; simpl in Hs; try discriminate.
  - unfold plug in *.
    destruct (PyStr.isdigit part) eqn:H1; [|discriminate].
    destruct (PyStr.int part) as [idx|] eqn:H2; [|discriminate].
    simpl in Hs, Hd. unfold same_index in Hd. rewrite H1, H2 in Hd.
    simpl in Hd |- *. rewrite len_setitem.
    destruct (PyStr.isdigit part'); [|reflexivity].
    destruct (PyStr.int part') as [idx'|]; [|reflexivity].
    apply N.eqb_neq in Hd.
    now rewrite list_getitem_setitem_other.
  - simpl in Hd. unfold plug. rewrite !get_loop_dict.
    rewrite get_setitem_other; [reflexivity|].
    now apply String.eqb_neq.
Qed.

(** A successful write leaves the reads that leave its path at
    another slot as they were. *)
Lemma frame_loop pre part rest part' rest' v doc doc' node' :
  set_loop (pre ++ part :: rest) v doc = (Ok true, doc') ->
  get_loop pre doc' = Ok node' ->
  same_slot node' part part' = false ->
  get_loop (pre ++ part' :: rest') doc' = get_loop (pre ++ part' :: rest') doc.
Proof.
  revert doc doc'.
  induction pre as [|a pre IH]; intros doc doc' Hset Hnode Hd.
  - simpl in *. inversion Hnode. subst node'.
    apply set_loop_inv in Hset as (Hs & c & -> & _).
    now apply get_loop_plug_other.
  - simpl app in *.
    apply set_loop_inv in Hset as (Hs & c & -> & Hc).
    rewrite get_loop_plug in Hnode |- * by assumption.
    destruct Hc as [[E _]|(_ & child & Hchild & Hset)];
      [destruct pre; discriminate|].
    rewrite (IH _ _ Hset Hnode Hd).
    destruct Hchild as [He|[Hv ->]].
    + now rewrite (get_loop_enter _ _ _ _ He).
    + destruct (pre ++ part' :: rest') as [|part2 tl] eqn:E;
        [destruct pre; discriminate|].
      now rewrite get_loop_fresh, get_loop_vivifies.
Qed.

End PathEngine.

(** ** The action processor *)

Section Pipeline.

Context {py : interpreter}.

Variables (doc : pyobj) (events : list pyobj).
Variables (action : pyobj) (pending : list pyobj) (n : nat).

(** A store whose loop has [action] to take next; the action was
    [put] and is not yet marked done. *)
Local Abbreviation self :=
  (mkStore doc (mkQueue (action :: pending) (S n)) events).

(** The store after [get] has returned [action]. *)
Local Abbreviation taken := (mkStore doc (mkQueue pending (S n)) events).

(** What an action that applies is made of. *)
Lemma applies_inv :
  applies doc action = true ->
  exists d p doc',
    action = VDict d /\
    passes formats_action action = true /\
    is_set_state (PyDict.get d "type") = true /\
    PyDict.get d "path" = VStr p /\
    passes copies_state doc = true /\
    _set_nested_value (VStr p) (PyDict.get d "value") doc = (Ok true, doc').
Proof.
  unfold applies. destruct action as [| | | |l|d]; try discriminate.
  intros H. apply andb_true_iff in H as [H Hw].
  apply andb_true_iff in H as [Hf Ht].
  destruct (PyDict.get d "path") as [| | |p| |] eqn:Hp; try discriminate.
  apply andb_true_iff in Hw as [Hc Hw].
  destruct (_set_nested_value (VStr p) (PyDict.get d "value") doc)
    as [[[|]|e] doc'] eqn:Hset; try discriminate.
  exists d, p, doc'. repeat split; auto.
Qed.

(** On an action that it does not apply, [process] marks the action
    done and returns, or raises with nothing done. *)
Lemma process_skips :
  applies doc action = false ->
  process action taken = (Ok tt, mkStore doc (mkQueue pending n) events) \/
  exists e, process action taken = (Raise e, taken).
Proof.
  unfold process, bind, lift, py_format, deepcopy, action_task_done,
    task_done.
  simpl. intros H.
  destruct (passes formats_action action) eqn:Hf;
    [|right; eexists; reflexivity].
  destruct action as [| | | |l|d]; try (right; eexists; reflexivity).
  simpl in H. rewrite Hf in H. simpl in *.
  destruct (is_set_state (PyDict.get d "type")); [|now left].
  destruct (PyDict.get d "path") as [| | |p| |];
    try (right; eexists; reflexivity); try (now left).
  simpl in *.
  destruct (_get_nested_value (VStr p) doc);
    [|right; eexists; reflexivity].
  destruct (passes copies_state doc); [|right; eexists; reflexivity].
  simpl in *.
  destruct (_set_nested_value (VStr p) (PyDict.get d "value") doc)
    as [[[|]|e] doc'] eqn:E; simpl in *;
    try (right; eexists; reflexivity); now left.
Qed.

(** On an action that it applies, [process] replaces the document by
    the written copy, queues one event and marks the action done. *)
Lemma process_applies d p doc' :
  action = VDict d ->
  passes formats_action action = true ->
  is_set_state (PyDict.get d "type") = true ->
  PyDict.get d "path" = VStr p ->
  passes copies_state doc = true ->
  _set_nested_value (VStr p) (PyDict.get d "value") doc = (Ok true, doc') ->
  exists old_value,
    _get_nested_value (VStr p) doc = Ok old_value /\
    process action taken =
    (Ok tt,
     mkStore doc' (mkQueue pending n)
       (events ++
        [state_changed (VStr p) old_value (PyDict.get d "value") action])).
Proof.
  intros Ha Hf Ht Hp Hc Hset.
  destruct (set_returns_get_returns (PyStr.split p) (PyDict.get d "value")
              doc true) as [old_value Hold].
  { unfold _set_nested_value in Hset. simpl in Hset. now rewrite Hset. }
  exists old_value. split; [exact Hold|].
  unfold process, bind, lift, py_format, deepcopy, action_task_done,
    task_done.
  rewrite Hf. subst action. simpl. rewrite Ht, Hp. simpl.
  unfold _get_nested_value at 1. simpl. rewrite Hold, Hc, Hset. simpl.
  unfold _get_nested_value. simpl.
  unfold _set_nested_value in Hset. simpl in Hset.
  now rewrite (get_after_set _ _ _ _ (split_nonempty p) Hset).
Qed.

Lemma iteration_skips :
  applies doc action = false ->
  iteration self = Next (mkStore doc (mkQueue pending n) events).
Proof.
  intros H. unfold iteration.
  cbn [items _action_queue _state _event_queue _unfinished_tasks].
  destruct (process_skips H) as [->|[e ->]]; reflexivity.
Qed.

Lemma iteration_applies d p doc' :
  action = VDict d ->
  passes formats_action action = true ->
  is_set_state (PyDict.get d "type") = true ->
  PyDict.get d "path" = VStr p ->
  passes copies_state doc = true ->
  _set_nested_value (VStr p) (PyDict.get d "value") doc = (Ok true, doc') ->
  exists old_value,
    _get_nested_value (VStr p) doc = Ok old_value /\
    iteration self =
    Next (mkStore doc' (mkQueue pending n)
            (events ++
             [state_changed (VStr p) old_value (PyDict.get d "value")
                action])).
Proof.
  intros Ha Hf Ht Hp Hc Hset.
  destruct (process_applies d p doc' Ha Hf Ht Hp Hc Hset)
    as (old & Hold & E).
  exists old. split; [assumption|].
  unfold iteration.
  cbn [items _action_queue _state _event_queue _unfinished_tasks].
  now rewrite E.
Qed.

(** What raises in [process] is not an action that it applies. *)
Lemma process_raises_skips e self' :
  process action taken = (Raise e, self') -> applies doc action = false.
Proof.
  intros H. destruct (applies doc action) eqn:Ha; [|reflexivity].
  destruct (applies_inv Ha) as (d & p & doc' & Eact & Hf & Ht & Hp & Hc & Hset).
  destruct (process_applies d p doc' Eact Hf Ht Hp Hc Hset) as (old & _ & E).
  congruence.
Qed.

End Pipeline.

Section Runs.

Context {py : interpreter}.

Lemma fails_to_apply_skips doc action :
  fails_to_apply doc action = true -> applies doc action = false.
Proof.
  intros H. destruct (applies doc action) eqn:Ha; [|reflexivity].
  destruct (applies_inv _ _ Ha)
    as (d & p & doc' & -> & _ & Ht & Hp & _ & Hset).
  simpl in H. rewrite Ht, Hp, Hset in H. discriminate.
Qed.

(** One round on any action: the loop goes on, the action is marked
    done, and the document and the events change only if the action
    applies. *)
Lemma iteration_any (self : store) action pending :
  items (_action_queue self) = action :: pending ->
  consistent (_action_queue self) = true ->
  exists self',
    iteration self = Next self' /\
    items (_action_queue self') = pending /\
    S (_unfinished_tasks (_action_queue self')) =
    _unfinished_tasks (_action_queue self) /\
    consistent (_action_queue self') = true /\
    (applies (_state self) action = false ->
     _state self' = _state self /\ _event_queue self' = _event_queue self).
Proof.
  destruct self as [doc [its m] events]. unfold consistent. simpl.
  intros -> Hm. apply Nat.leb_le in Hm. simpl in Hm.
  destruct m as [|n]; [lia|].
  assert (Hn : (List.length pending <=? n)%nat = true)
    by (apply Nat.leb_le; lia).
  destruct (applies doc action) eqn:Ha.
  - destruct (applies_inv _ _ Ha)
      as (d & p & doc' & Eact & Hf & Ht & Hp & Hc & Hset).
    destruct (iteration_applies doc events _ pending n d p doc'
                Eact Hf Ht Hp Hc Hset) as (old_value & _ & ->).
    eexists. split; [reflexivity|]. simpl. repeat split; auto.
    all: discriminate.
  - rewrite (iteration_skips doc events action pending n Ha).
    eexists. split; [reflexivity|]. simpl. repeat split; auto.
Qed.

Lemma init_consistent : consistent (_action_queue init) = true.
Proof. reflexivity. Qed.

(** [dispatch] queues the action whatever it returns. *)
Lemma dispatch_consistent (self : store) action :
  consistent (_action_queue self) = true ->
  consistent (_action_queue (snd (dispatch action self))) = true /\
  items (_action_queue (snd (dispatch action self))) =
  items (_action_queue self) ++ [action].
Proof.
  unfold consistent, dispatch. intros H. apply Nat.leb_le in H.
  assert (Hc : consistent (put (_action_queue self) action) = true).
  { unfold consistent, put. simpl. apply Nat.leb_le.
    rewrite length_app. simpl. lia. }
  destruct action as [| | | |l|d]; simpl; auto.
  destruct (PyDict.getitem d "type"); simpl; auto.
Qed.

(** The loop takes every queued action in turn. *)
Lemma run_drains (self : store) :
  consistent (_action_queue self) = true ->
  exists self',
    _action_processor (List.length (items (_action_queue self))) self =
    Running self' /\
    items (_action_queue self') = [] /\
    (_unfinished_tasks (_action_queue self') +
     List.length (items (_action_queue self)) =
     _unfinished_tasks (_action_queue self))%nat.
Proof.
  remember (items (_action_queue self)) as its eqn:E.
  revert self E. induction its as [|action pending IH]; intros self E Hc.
  - exists self. simpl. rewrite <- E. repeat split; auto.
  - destruct (iteration_any self action pending (eq_sym E) Hc)
      as (self1 & Hi & Hp & Hu & Hc1 & _).
    destruct (IH self1 (eq_sym Hp) Hc1) as (self' & Hr & He & Hn).
    exists self'. simpl. rewrite Hi. repeat split; auto. lia.
Qed.

(** A run of actions that all apply. *)
Lemma run_valid actions :
  forall doc events later m,
    valid_sequence doc actions = true ->
    (List.length actions <= m)%nat ->
    let self := mkStore doc (mkQueue (actions ++ later) m) events in
    exists final_doc emitted,
      _action_processor (List.length actions) self =
      Running (mkStore final_doc
                 (mkQueue later (m - List.length actions))
                 (events ++ emitted)) /\
      List.length emitted = List.length actions /\
      forall k action,
        nth_error actions k = Some action ->
        exists event before after,
          nth_error emitted k = Some event /\
          _action_processor k self = Running before /\
          _action_processor (S k) self = Running after /\
          reports event action (_state before) (_state after).
Proof.
  induction actions as [|a tl IH]; intros doc events later m Hv Hm self.
  - exists doc, []. subst self. simpl. rewrite app_nil_r, Nat.sub_0_r.
    repeat split; auto. intros [|k] action; discriminate.
  - simpl in Hv. apply andb_true_iff in Hv as [Ha Hv].
    destruct m as [|n]; [simpl in Hm; lia|].
    destruct (applies_inv _ _ Ha)
      as (d & p & doc' & -> & Hf & Ht & Hp & Hc & Hset).
    assert (Hw : written doc (VDict d) = doc')
      by (simpl; now rewrite Hp, Hset).
    rewrite Hw in Hv.
    destruct (iteration_applies doc events _ (tl ++ later) n d p doc'
                eq_refl Hf Ht Hp Hc Hset) as (old_value & Hold & Hi).
    set (ev := state_changed (VStr p) old_value (PyDict.get d "value")
                 (VDict d)) in *.
    assert (Hnew : _get_nested_value (VStr p) doc' =
                   Ok (PyDict.get d "value")).
    { unfold _set_nested_value, _get_nested_value in *. simpl in *.
      now apply (get_after_set _ _ _ _ (split_nonempty p) Hset). }
    destruct (IH doc' (events ++ [ev]) later n Hv ltac:(simpl in Hm; lia))
      as (final_doc & emitted & Hrun & Hlen & Hk).
    exists final_doc, (ev :: emitted).
    assert (Hstep : forall k,
               _action_processor (S k) self =
               _action_processor k
                 (mkStore doc' (mkQueue (tl ++ later) n) (events ++ [ev]))).
    { intros k. subst self. simpl app. simpl _action_processor.
      now rewrite Hi. }
    split; [|split].
    + cbn [List.length Nat.sub]. rewrite Hstep.
      rewrite Hrun, <- app_assoc. reflexivity.
    + simpl. now rewrite Hlen.
    + intros [|k] action Hnth.
      * simpl in Hnth. inversion Hnth. subst action.
        exists ev, self, (mkStore doc' (mkQueue (tl ++ later) n)
                            (events ++ [ev])).
        repeat split; auto.
        exists p, old_value, (PyDict.get d "value"). simpl.
        rewrite Hp. repeat split; auto.
      * simpl in Hnth.
        destruct (Hk k action Hnth) as (event & before & after & H1 & H2
                                        & H3 & H4).
        exists event, before, after. rewrite !Hstep. repeat split; auto.
Qed.

End Runs.

(** ** Properties of the path engine *)

(** An index literal that [isdigit] accepts and [int] refuses: the
    read and the write raise [ValueError] at a [list]. *)
Example superscript_index_raises :
  let part := String (ascii_of_N 178) EmptyString in
  let doc := VDict [("l", VList [VInt 1])] in
  PyStr.isdigit part = true /\
  _get_nested_value (VStr ("l." ++ part)) doc = Raise ValueError /\
  _set_nested_value (VStr ("l." ++ part)) VNone doc = (Raise ValueError, doc).
Proof. repeat split. Qed.

(** The first scenario of the spec: one event, from ["dark"] to
    ["light"]. *)
Example theme_scenario :
  let py := room 400 in
  let action :=
    VDict [("type", VStr "SET_STATE"); ("path", VStr "user_settings.theme");
           ("value", VStr "light")] in
  iteration
    (mkStore (VDict [("user_settings", VDict [("theme", VStr "dark")])])
       (mkQueue [action] 1) []) =
  Next
    (mkStore (VDict [("user_settings", VDict [("theme", VStr "light")])])
       (mkQueue [] 0)
       [state_changed (VStr "user_settings.theme") (VStr "dark")
          (VStr "light") action]).
Proof. reflexivity. Qed.

(** C3. When [_set_nested_value(path, value, doc)] returns [True], a
    following [_get_nested_value(path, doc)] on the same target
    returns [value]. *)
Theorem read_after_write (doc : pyobj) (p : string) (v : pyobj) (doc' : pyobj) :
  _set_nested_value (VStr p) v doc = (Ok true, doc') ->
  _get_nested_value (VStr p) doc' = Ok v.
Proof.
  unfold _set_nested_value, _get_nested_value. simpl.
  apply get_after_set, split_nonempty.
Qed.

Lemma read_after_write_witness :
  let doc' :=
    VDict [("players",
            VDict [("player_alpha", VDict [("username", VStr "Nehsamud")])])] in
  _set_nested_value (VStr "players.player_alpha.username") (VStr "Nehsamud")
    (VDict []) = (Ok true, doc') /\
  _get_nested_value (VStr "players.player_alpha.username") doc' =
  Ok (VStr "Nehsamud").
Proof.
  intros doc'. split; [reflexivity|].
  apply (read_after_write (VDict []) "players.player_alpha.username"
           (VStr "Nehsamud") doc').
  reflexivity.
Defined.



(** C5. When [_set_nested_value] returns [False], the target it was
    given is exactly as it was before the call. *)
Theorem failed_write_leaves_target (path v doc doc' : pyobj) :
  _set_nested_value path v doc = (Ok false, doc') -> doc' = doc.
Proof.
  unfold _set_nested_value. destruct (py_split path) as [parts|e].
  - intros H. apply (set_loop_unchanged _ _ _ _ _ H). discriminate.
  - discriminate.
Qed.

Lemma failed_write_leaves_target_witness :
  let doc := VDict [("list", VList [VInt 0; VInt 1; VInt 2])] in
  let doc' := snd (_set_nested_value (VStr "list.5.x") (VInt 1) doc) in
  _set_nested_value (VStr "list.5.x") (VInt 1) doc = (Ok false, doc') /\
  doc' = doc.
Proof.
  intros doc doc'. split; [reflexivity|].
  apply (failed_write_leaves_target (VStr "list.5.x") (VInt 1) doc doc').
  reflexivity.
Defined.

(** The cases in which the read does return [None]: the walk meets a
    key that a [dict] lacks, a segment that [isdigit] refuses on a
    [list], any segment on an object that is no container, an index
    out of bounds, or [None] before the last segment; whatever
    segments follow do not change that. *)
Lemma read_short_circuits_to_None
        (doc : pyobj) (p : string) pre part rest (node : pyobj) :
  PyStr.split p = pre ++ part :: rest ->
  get_loop pre doc = Ok node ->
  short_circuits node part = true ->
  _get_nested_value (VStr p) doc = Ok VNone.
Proof.
  intros Hp Hpre Hsc. unfold _get_nested_value. simpl. rewrite Hp.
  rewrite (get_loop_app _ _ _ _ Hpre).
  destruct node as [| | | |l|d]; try reflexivity.
  - simpl in *. destruct (PyStr.isdigit part); [|reflexivity].
    destruct (PyStr.int part) as [idx|]; [|discriminate].
    simpl in Hsc. apply N.leb_le in Hsc.
    destruct (idx <? PyList.len l)%N eqn:E; [|reflexivity].
    apply N.ltb_lt in E. lia.
  - rewrite get_loop_dict. simpl in Hsc. apply negb_true_iff in Hsc.
    unfold PyDict.contains, PyDict.get in *.
    destruct (PyDict.lookup d part); [discriminate|]. apply get_loop_None.
Qed.

Lemma read_short_circuits_to_None_witness :
  let doc := VDict [("a", VNone)] in
  (PyStr.split "a.b.c" = ["a"] ++ "b" :: ["c"] /\
   get_loop ["a"] doc = Ok VNone /\
   short_circuits VNone "b" = true) /\
  _get_nested_value (VStr "a.b.c") doc = Ok VNone.
Proof.
  intros doc. split; [repeat split|].
  apply (read_short_circuits_to_None doc "a.b.c" ["a"] "b" ["c"] VNone);
    reflexivity.
Defined.

(** C6.  The code does not return [None] for every segment that is no
    index on a [list]: [isdigit] guards [int], and where [isdigit]
    accepts a segment that [int] refuses (a superscript digit, a
    string of more than 4300 digits) the read raises [ValueError]. *)
Theorem read_raises_at_refused_index
        (doc : pyobj) (p : string) pre part rest (l : list pyobj) :
  PyStr.split p = pre ++ part :: rest ->
  get_loop pre doc = Ok (VList l) ->
  PyStr.isdigit part = true ->
  PyStr.int part = None ->
  _get_nested_value (VStr p) doc = Raise ValueError.
Proof.
  intros Hp Hpre Hd Hi. unfold _get_nested_value. simpl. rewrite Hp.
  rewrite (get_loop_app _ _ _ _ Hpre). simpl. now rewrite Hd, Hi.
Qed.

Lemma read_raises_at_refused_index_witness :
  let part := String (ascii_of_N 178) EmptyString in
  let doc := VDict [("l", VList [VInt 1])] in
  (PyStr.isdigit part = true /\ PyStr.int part = None) /\
  _get_nested_value (VStr ("l." ++ part)) doc = Raise ValueError.
Proof.
  intros part doc. split; [split; reflexivity|].
  apply (read_raises_at_refused_index doc ("l." ++ part) ["l"] part []
           [VInt 1]); reflexivity.
Defined.



(** C10, as amended.  In a document in which no container is held in
    two slots (every [pyobj] is such a document), a successful write
    changes the document along its own path only: a read of a path
    that follows the written path up to some object and leaves it
    there at another slot (another key of a [dict], another index of a
    [list], where index literals denote the same slot when they denote
    the same number) returns what it returned before the write.  For
    such a document that is a [dict], this holds of every path whose
    first segment differs from the first segment of the written
    path. *)
Theorem write_frame :
  (forall doc p q v doc' pre part rest part' rest' node',
      _set_nested_value (VStr p) v doc = (Ok true, doc') ->
      PyStr.split p = pre ++ part :: rest ->
      PyStr.split q = pre ++ part' :: rest' ->
      get_loop pre doc' = Ok node' ->
      same_slot node' part part' = false ->
      _get_nested_value (VStr q) doc' = _get_nested_value (VStr q) doc) /\
  (forall d p q v doc',
      _set_nested_value (VStr p) v (VDict d) = (Ok true, doc') ->
      hd_error (PyStr.split p) <> hd_error (PyStr.split q) ->
      _get_nested_value (VStr q) doc' = _get_nested_value (VStr q) (VDict d)).
Proof.
  split.
  - intros doc p q v doc' pre part rest part' rest' node' Hset Hp Hq Hn Hd.
    unfold _set_nested_value, _get_nested_value in *. simpl in *.
    rewrite Hp in Hset. rewrite Hq.
    exact (frame_loop _ _ _ _ _ _ _ _ _ Hset Hn Hd).
  - intros d p q v doc' Hset Hne.
    unfold _set_nested_value, _get_nested_value in *. simpl in *.
    destruct (PyStr.split p) as [|part rest] eqn:Hp;
      [now apply split_nonempty in Hp|].
    destruct (PyStr.split q) as [|part' rest'] eqn:Hq;
      [now apply split_nonempty in Hq|].
    apply (frame_loop [] part rest part' rest' v (VDict d) doc' doc' Hset
             eq_refl).
    apply set_loop_inv in Hset as (_ & c & -> & _). simpl.
    apply String.eqb_neq. simpl in Hne. congruence.
Qed.

Lemma write_frame_witness :
  let doc :=
    VDict [("rooms", VList [VDict [("name", VStr "start")];
                            VDict [("name", VStr "hut")]])] in
  let doc' :=
    VDict [("rooms", VList [VDict [("name", VStr "cave")];
                            VDict [("name", VStr "hut")]])] in
  (_set_nested_value (VStr "rooms.0.name") (VStr "cave") doc =
   (Ok true, doc') /\
   same_slot (VList [VDict [("name", VStr "cave")];
                     VDict [("name", VStr "hut")]]) "0" "1" = false) /\
  _get_nested_value (VStr "rooms.1.name") doc' =
  _get_nested_value (VStr "rooms.1.name") doc.
Proof.
  intros doc doc'. split; [split; reflexivity|].
  apply (proj1 write_frame doc "rooms.0.name" "rooms.1.name" (VStr "cave")
           doc' ["rooms"] "0" ["name"] "1" ["name"]
           (VList [VDict [("name", VStr "cave")];
                   VDict [("name", VStr "hut")]]));
    reflexivity.
Defined.

(** C10, as stated, fails: on a document that is a [list], ["0"] and
    ["00"] are different first segments of the same slot. *)
Lemma write_frame_first_segment_counterexample :
  ~ (forall doc p q v doc',
        _set_nested_value (VStr p) v doc = (Ok true, doc') ->
        hd_error (PyStr.split p) <> hd_error (PyStr.split q) ->
        _get_nested_value (VStr q) doc' = _get_nested_value (VStr q) doc).
Proof.
  intros H.
  specialize (H (VList [VInt 0]) "0" "00" (VInt 1) (VList [VInt 1]) eq_refl).
  assert (Hne : hd_error (PyStr.split "0") <> hd_error (PyStr.split "00"))
    by discriminate.
  specialize (H Hne). discriminate H.
Qed.

(** ** Properties of the action processor *)

(** C1. An action that fails to apply (a type other than [SET_STATE],
    a [SET_STATE] action without a path, a write that returns [False])
    emits no event and leaves the document that [get_current_state]
    returns as it was; the loop goes on with the next action. *)
Theorem failed_action_changes_nothing {py : interpreter}
        (self : store) action pending :
  items (_action_queue self) = action :: pending ->
  consistent (_action_queue self) = true ->
  fails_to_apply (_state self) action = true ->
  exists self',
    iteration self = Next self' /\
    get_current_state self' = get_current_state self /\
    subscribe_events self' = subscribe_events self /\
    items (_action_queue self') = pending.
Proof.
  intros Hi Hc Hf. apply fails_to_apply_skips in Hf.
  destruct (iteration_any self action pending Hi Hc)
    as (self' & Hn & Hp & _ & _ & Hsame).
  destruct (Hsame Hf) as [Hs He].
  exists self'. unfold get_current_state, subscribe_events.
  now rewrite Hs, He.
Qed.

Lemma failed_action_changes_nothing_witness :
  let py := room 400 in
  let doc := VDict [("list", VList [VInt 0; VInt 1; VInt 2])] in
  let bad := VDict [("type", VStr "SET_STATE"); ("path", VStr "list.x");
                    ("value", VInt 1)] in
  let self := mkStore doc (mkQueue [bad; VDict [("type", VStr "PING")]] 2) [] in
  exists self',
    iteration self = Next self' /\
    get_current_state self' = get_current_state self /\
    subscribe_events self' = subscribe_events self /\
    items (_action_queue self') = [VDict [("type", VStr "PING")]].
Proof.
  intros py doc bad self.
  apply (failed_action_changes_nothing self bad
           [VDict [("type", VStr "PING")]]); reflexivity.
Defined.

(** C2. When each of [N] queued [SET_STATE] actions applies in its
    turn (the interpreter can format it and copy the document, and its
    write succeeds), the processor emits exactly [N] events, the k-th
    for the k-th action; its [new_value] is what the path reads in the
    document after that action, its [old_value] what the path read in
    the document before it. *)
Theorem valid_actions_emit_in_order {py : interpreter}
        (self : store) (actions later : list pyobj) :
  items (_action_queue self) = actions ++ later ->
  consistent (_action_queue self) = true ->
  valid_sequence (_state self) actions = true ->
  exists final emitted,
    _action_processor (List.length actions) self = Running final /\
    items (_action_queue final) = later /\
    subscribe_events final = subscribe_events self ++ emitted /\
    List.length emitted = List.length actions /\
    forall k action,
      nth_error actions k = Some action ->
      exists event before after,
        nth_error emitted k = Some event /\
        _action_processor k self = Running before /\
        _action_processor (S k) self = Running after /\
        reports event action (_state before) (_state after).
Proof.
  destruct self as [doc [its m] events]. unfold consistent. simpl.
  intros -> Hc Hv. apply Nat.leb_le in Hc. rewrite length_app in Hc.
  destruct (run_valid actions doc events later m Hv ltac:(lia))
    as (final_doc & emitted & Hrun & Hlen & Hk).
  eexists. exists emitted. split; [exact Hrun|]. simpl. auto.
Qed.

Lemma valid_actions_emit_in_order_witness :
  let py := room 400 in
  let a1 := VDict [("type", VStr "SET_STATE");
                   ("path", VStr "user_settings.theme");
                   ("value", VStr "light")] in
  let a2 := VDict [("type", VStr "SET_STATE");
                   ("path", VStr "user_settings.theme.accent");
                   ("value", VInt 3)] in
  let self :=
    mkStore (VDict [("user_settings", VDict [("theme", VStr "dark")])])
      (mkQueue [a1; a2] 2) [] in
  exists final emitted,
    _action_processor 2 self = Running final /\
    items (_action_queue final) = [] /\
    subscribe_events final = subscribe_events self ++ emitted /\
    List.length emitted = 2%nat /\
    forall k action,
      nth_error [a1; a2] k = Some action ->
      exists event before after,
        nth_error emitted k = Some event /\
        _action_processor k self = Running before /\
        _action_processor (S k) self = Running after /\
        reports event action (_state before) (_state after).
Proof.
  intros py a1 a2 self.
  apply (valid_actions_emit_in_order self [a1; a2] []); reflexivity.
Defined.

(** C8. No action stops the loop.  Whatever the action, the round
    that takes it ends with the action marked done and the loop going
    round again on the next one; an action on which [process] raises
    (an action that is no [dict], a path that is neither a [str] nor
    [None], an action or a document beyond the recursion limit) is not
    applied: the document and the events stay as they were.  So the
    loop takes every queued action. *)
Theorem loop_survives_every_action {py : interpreter} :
  (forall (self : store) action pending,
      items (_action_queue self) = action :: pending ->
      consistent (_action_queue self) = true ->
      exists self',
        iteration self = Next self' /\
        items (_action_queue self') = pending /\
        S (_unfinished_tasks (_action_queue self')) =
        _unfinished_tasks (_action_queue self) /\
        forall e faulted,
          process action
            (mkStore (_state self)
               (mkQueue pending (_unfinished_tasks (_action_queue self)))
               (_event_queue self)) = (Raise e, faulted) ->
          _state self' = _state self /\
          _event_queue self' = _event_queue self) /\
  (forall (self : store),
      consistent (_action_queue self) = true ->
      exists self',
        _action_processor (List.length (items (_action_queue self))) self =
        Running self' /\
        items (_action_queue self') = [] /\
        (_unfinished_tasks (_action_queue self') +
         List.length (items (_action_queue self)) =
         _unfinished_tasks (_action_queue self))%nat) /\
  (forall (self : store) action,
      (forall d, action <> VDict d) ->
      fst (process action self) =
      match py_format formats_action action with
      | Ok _ => Raise AttributeError
      | Raise e => Raise e
      end) /\
  (forall (self : store) d path,
      is_set_state (PyDict.get d "type") = true ->
      PyDict.get d "path" = path ->
      is_None path = false ->
      (forall p, path <> VStr p) ->
      fst (process (VDict d) self) =
      match py_format formats_action (VDict d) with
      | Ok _ => Raise AttributeError
      | Raise e => Raise e
      end).
Proof.
  split; [|split; [|split]].
  - intros self action pending Hi Hc.
    destruct (iteration_any self action pending Hi Hc)
      as (self' & Hn & Hp & Hu & _ & Hsame).
    exists self'. split; [|split; [|split]]; auto.
    intros e faulted Hr. apply Hsame.
    destruct self as [doc [its [|n]] events]; simpl in *;
      [discriminate|].
    now apply process_raises_skips in Hr.
  - apply run_drains.
  - intros self action Ha. unfold process, bind, lift, py_format.
    destruct (passes formats_action action); [|reflexivity].
    destruct action as [| | | |l|d]; try reflexivity. now elim (Ha d).
  - intros self d path Ht Hp Hn Hs.
    unfold process, bind, lift, py_format.
    destruct (passes formats_action (VDict d)); [|reflexivity].
    simpl. rewrite Ht, Hp, Hn.
    destruct path as [| | |p| |]; try reflexivity; try discriminate.
    now elim (Hs p).
Qed.

Lemma loop_survives_every_action_witness :
  let py := room 400 in
  let good := VDict [("type", VStr "SET_STATE"); ("path", VStr "a.b");
                     ("value", VInt 1)] in
  let self :=
    mkStore (VDict [])
      (mkQueue [VInt 3;
                VDict [("type", VStr "SET_STATE"); ("path", VInt 5)];
                good] 3) [] in
  exists self',
    _action_processor 3 self = Running self' /\
    items (_action_queue self') = [] /\
    (_unfinished_tasks (_action_queue self') + 3 = 3)%nat.
Proof.
  intros py good self.
  apply (proj1 (proj2 loop_survives_every_action) self). reflexivity.
Defined.

(** C9. A [SET_STATE] action with a path and no ["value"] is not
    discarded: wherever the write of a value at its path would
    succeed, [None] is written there and the event of the action is
    emitted, with [None] as [new_value]. *)
Theorem set_state_without_value_writes_None {py : interpreter}
        (self : store) d p pending (v : pyobj) :
  items (_action_queue self) = VDict d :: pending ->
  consistent (_action_queue self) = true ->
  is_set_state (PyDict.get d "type") = true ->
  PyDict.get d "path" = VStr p ->
  PyDict.contains d "value" = false ->
  passes formats_action (VDict d) = true ->
  passes copies_state (_state self) = true ->
  fst (_set_nested_value (VStr p) v (_state self)) = Ok true ->
  exists doc' old_value,
    _set_nested_value (VStr p) VNone (_state self) = (Ok true, doc') /\
    _get_nested_value (VStr p) (_state self) = Ok old_value /\
    _get_nested_value (VStr p) doc' = Ok VNone /\
    iteration self =
    Next (mkStore doc'
            (mkQueue pending (pred (_unfinished_tasks (_action_queue self))))
            (_event_queue self ++
             [state_changed (VStr p) old_value VNone (VDict d)])).
Proof.
  intros Hi Hc Ht Hp Hv Hf Hcopy Hw.
  assert (Hval : PyDict.get d "value" = VNone).
  { unfold PyDict.contains, PyDict.get in *.
    now destruct (PyDict.lookup d "value"). }
  assert (Hnone : fst (_set_nested_value (VStr p) VNone (_state self))
                  = Ok true).
  { rewrite <- Hw. unfold _set_nested_value. simpl.
    apply set_loop_any_value. }
  destruct (_set_nested_value (VStr p) VNone (_state self))
    as [r doc'] eqn:Hset.
  simpl in Hnone. subst r.
  destruct self as [doc [its m] events]. unfold consistent in Hc.
  simpl in *. subst its. apply Nat.leb_le in Hc. simpl in Hc.
  destruct m as [|n]; [lia|].
  rewrite <- Hval in Hset.
  destruct (iteration_applies doc events _ pending n d p doc'
              eq_refl Hf Ht Hp Hcopy Hset) as (old_value & Hold & Hnext).
  rewrite Hval in *.
  exists doc', old_value. repeat split; auto.
  unfold _set_nested_value, _get_nested_value in *. simpl in *.
  now apply (get_after_set _ _ _ _ (split_nonempty p) Hset).
Qed.

Lemma set_state_without_value_writes_None_witness :
  let py := room 400 in
  let p := "players.player_alpha.username" in
  let d := [("type", VStr "SET_STATE"); ("path", VStr p)] in
  let self := mkStore (VDict []) (mkQueue [VDict d] 1) [] in
  exists doc' old_value,
    _set_nested_value (VStr p) VNone (_state self) = (Ok true, doc') /\
    _get_nested_value (VStr p) (_state self) = Ok old_value /\
    _get_nested_value (VStr p) doc' = Ok VNone /\
    iteration self =
    Next (mkStore doc' (mkQueue [] 0)
            ([] ++ [state_changed (VStr p) old_value VNone (VDict d)])).
Proof.
  intros py p d self.
  apply (set_state_without_value_writes_None self d p [] (VStr "Roz"));
    reflexivity.
Defined.

(** The round of C9 on the second scenario of the spec without its
    value: [None] is written and reported. *)
Example set_state_without_value_scenario :
  let py := room 400 in
  let p := "players.player_alpha.username" in
  let action := VDict [("type", VStr "SET_STATE"); ("path", VStr p)] in
  iteration (mkStore (VDict []) (mkQueue [action] 1) []) =
  Next
    (mkStore
       (VDict [("players",
                VDict [("player_alpha", VDict [("username", VNone)])])])
       (mkQueue [] 0)
       [state_changed (VStr p) VNone VNone action]).
Proof. reflexivity. Qed.

(** A document that the interpreter cannot copy: the action is
    dropped, whatever it asks for. *)
Example deep_document_drops_actions :
  let py := room 3 in
  let deep := VDict [("type", VStr "SET_STATE"); ("path", VStr "a.b.c.d");
                     ("value", VInt 1)] in
  let next := VDict [("type", VStr "SET_STATE"); ("path", VStr "b");
                     ("value", VInt 2)] in
  exists self',
    _action_processor 2 (mkStore (VDict []) (mkQueue [deep; next] 2) []) =
    Running self' /\
    PyDict.contains
      (match _state self' with VDict d => d | _ => [] end) "b" = false /\
    List.length (_event_queue self') = 1%nat.
Proof. eexists. repeat split. Qed.

(** ** More about the path engine *)

Section PathEngineMore.

Implicit Types (parts pre rest : list string) (part : string).
Implicit Types (v w node doc : pyobj).

Lemma split_app_dot (p q : string) :
  PyStr.split (p ++ "." ++ q) = PyStr.split p ++ PyStr.split q.
Proof.
  induction p as [|c p IH]; [reflexivity|].
  change (String c p ++ "." ++ q)%string with (String c (p ++ "." ++ q)).
  cbn [PyStr.split]. rewrite IH.
  destruct (Ascii.eqb c "."%char); [reflexivity|].
  destruct (PyStr.split p) as [|seg segs] eqn:E; [|reflexivity].
  now apply split_nonempty in E.
Qed.

Lemma get_loop_app_raise pre rest doc e :
  get_loop pre doc = Raise e -> get_loop (pre ++ rest) doc = Raise e.
Proof.
  revert doc. induction pre as [|part pre IH]; intros doc H;
    [discriminate|].
  destruct (has_slot doc part) eqn:Hs.
  - destruct (get_loop_has_slot _ _ Hs) as [held Hh].
    simpl app. rewrite Hh in *. now apply IH.
  - simpl app. rewrite get_loop_no_slot in * by assumption. exact H.
Qed.

Lemma has_slot_plug node part c :
  has_slot node part = true -> has_slot (plug node part c) part = true.
Proof.
  destruct node as [| | | |l|d]; simpl; try discriminate; auto.
  destruct (PyStr.isdigit part) eqn:H1; [|discriminate].
  destruct (PyStr.int part) as [idx|] eqn:H2; [|discriminate].
  simpl. now rewrite H1, H2, len_setitem.
Qed.

Lemma plug_plug node part c c' :
  plug (plug node part c) part c' = plug node part c'.
Proof.
  destruct node as [| | | |l|d]; simpl; auto.
  - destruct (PyStr.int part) as [idx|] eqn:E; simpl; rewrite E;
      [now rewrite list_setitem_setitem|reflexivity].
  - now rewrite setitem_setitem.
Qed.

Lemma enter_plug node part c :
  has_slot node part = true -> is_container c = true ->
  enter (plug node part c) part = Some c.
Proof.
  intros Hs Hc. destruct node as [| | | |l|d]; simpl in *; try discriminate.
  - destruct (PyStr.isdigit part) eqn:H1; [|discriminate].
    destruct (PyStr.int part) as [idx|] eqn:H2; [|discriminate].
    simpl in *. rewrite H1, H2, len_setitem, Hs.
    rewrite list_getitem_setitem_same by assumption. now rewrite Hc.
  - now rewrite get_setitem_same, Hc.
Qed.

(** Where a write with segments left succeeds it leaves a container. *)
Lemma set_loop_container part rest v node node' :
  set_loop (part :: rest) v node = (Ok true, node') ->
  is_container node' = true.
Proof.
  intros H. apply set_loop_inv in H as (Hs & c & -> & _).
  destruct node as [| | | |l|d]; simpl in *; try discriminate; auto.
  destruct (PyStr.isdigit part); [|discriminate].
  now destruct (PyStr.int part).
Qed.

(** A second write at the path of a successful one finds what the
    first one would have found. *)
Lemma set_loop_overwrite parts v w node node1 :
  set_loop parts v node = (Ok true, node1) ->
  set_loop parts w node1 = set_loop parts w node.
Proof.
  revert node node1.
  induction parts as [|part rest IH]; intros node node1 H.
  - simpl in H. now inversion H.
  - apply set_loop_inv in H as (Hs & c & -> & Hc).
    destruct Hc as [[-> ->]|(Hrest & child & Hchild & Hset)].
    + rewrite !set_loop_last, has_slot_plug, Hs by assumption.
      now rewrite plug_plug.
    + destruct rest as [|part2 rest]; [congruence|].
      pose proof (set_loop_container _ _ _ _ _ Hset) as Hcont.
      rewrite (set_loop_enter _ _ _ _ _ _ (enter_plug _ _ _ Hs Hcont)).
      rewrite (IH _ _ Hset). clear IH.
      destruct Hchild as [He|[Hv ->]].
      * rewrite (set_loop_enter _ _ _ _ _ _ He).
        destruct (set_loop (part2 :: rest) w child) as [r c'].
        now rewrite plug_plug.
      * destruct (set_loop_vivifies part (part2 :: rest) w node Hv)
          as [-> _].
        rewrite set_loop_fresh, set_loop_last, Hs by discriminate.
        now rewrite plug_plug.
Qed.

(** The read and the write raise at the same objects. *)
Lemma set_raises_iff_get_raises parts v node e :
  fst (set_loop parts v node) = Raise e <-> get_loop parts node = Raise e.
Proof.
  revert node. induction parts as [|part rest IH]; intros node.
  - simpl. split; discriminate.
  - destruct (has_slot node part) eqn:Hs.
    + destruct rest as [|part2 rest].
      * rewrite set_loop_last, Hs.
        destruct (get_loop_has_slot _ _ Hs) as [held ->].
        simpl. split; discriminate.
      * destruct (has_slot_cases _ _ Hs) as [[child He]|Hv].
        -- rewrite (set_loop_enter _ _ _ _ _ _ He).
           rewrite (get_loop_enter _ _ _ _ He), <- IH.
           now destruct (set_loop (part2 :: rest) v child).
        -- destruct (set_loop_vivifies part (part2 :: rest) v node Hv)
             as [_ ->].
           rewrite get_loop_vivifies by assumption. split; discriminate.
    + rewrite set_loop_no_slot, get_loop_no_slot by assumption. simpl.
      destruct (refused node part); split; congruence.
Qed.

Lemma get_loop_raises_ValueError parts node e :
  get_loop parts node = Raise e -> e = ValueError.
Proof.
  revert node. induction parts as [|part rest IH]; intros node H;
    [discriminate|].
  destruct (has_slot node part) eqn:Hs.
  - destruct (get_loop_has_slot _ _ Hs) as [held Hh].
    rewrite Hh in H. now apply IH in H.
  - rewrite get_loop_no_slot in H by assumption.
    destruct node as [| | | |l|d]; simpl in H; try discriminate.
    destruct (PyStr.isdigit part); [|discriminate].
    destruct (PyStr.int part); [discriminate|congruence].
Qed.

(** A write that does not succeed met, at the end of a prefix of its
    path, an object in which the next segment addresses no slot; the
    object is the target itself or a container inside it. *)
Lemma set_loop_failure parts v node r node' :
  parts <> [] ->
  set_loop parts v node = (r, node') -> r <> Ok true ->
  exists pre part rest bad,
    parts = pre ++ part :: rest /\
    get_loop pre node = Ok bad /\
    has_slot bad part = false /\
    (pre = [] \/ is_container bad = true).
Proof.
  revert node r node'.
  induction parts as [|part rest IH]; intros node r node' Hne H Hr;
    [congruence|].
  destruct (has_slot node part) eqn:Hs.
  - destruct rest as [|part2 rest].
    + rewrite set_loop_last, Hs in H. congruence.
    + destruct (has_slot_cases _ _ Hs) as [[child He]|Hv].
      * rewrite (set_loop_enter _ _ _ _ _ _ He) in H.
        destruct (set_loop (part2 :: rest) v child) as [r1 c1] eqn:E.
        inversion H; subst r1.
        destruct (IH child r c1 ltac:(discriminate) E Hr)
          as (pre & bad_part & rest' & bad & Hp & Hg & Hb & Hc).
        exists (part :: pre), bad_part, rest', bad.
        rewrite Hp. repeat split; auto.
        -- now rewrite (get_loop_enter _ _ _ _ He).
        -- right. destruct Hc as [-> | Hc]; [|assumption].
           simpl in Hg. inversion Hg. subst bad.
           now apply enter_container in He.
      * destruct (set_loop_vivifies part (part2 :: rest) v node Hv)
          as [_ Hok].
        rewrite H in Hok. simpl in Hok. congruence.
  - exists [], part, rest, node. repeat split; auto.
Qed.

Lemma keys_setitem (d : PyDict.t) k v :
  exists added, map fst (PyDict.setitem d k v) = map fst d ++ added.
Proof.
  induction d as [|[k' v'] d [added IH]]; simpl.
  - now exists [k].
  - destruct (String.eqb k k'); simpl.
    + exists []. now rewrite app_nil_r.
    + exists added. now rewrite IH.
Qed.

Lemma keeps_shape_refl node : keeps_shape node node.
Proof.
  destruct node; simpl; auto. exists []. now rewrite app_nil_r.
Qed.

Lemma keeps_shape_trans a b c :
  keeps_shape a b -> keeps_shape b c -> keeps_shape a c.
Proof.
  destruct a, b; simpl; try congruence;
    destruct c; simpl; try congruence.
  intros [x Hx] [y Hy]. exists (x ++ y). now rewrite Hy, Hx, app_assoc.
Qed.

Lemma keeps_shape_plug node part c :
  has_slot node part = true -> keeps_shape node (plug node part c).
Proof.
  destruct node as [| | | |l|d]; simpl; try discriminate.
  - destruct (PyStr.isdigit part); [|discriminate].
    destruct (PyStr.int part) as [idx|]; [|discriminate].
    intros _. apply set_nth_length.
  - intros _. apply keys_setitem.
Qed.

Lemma set_loop_keeps_shape parts v node r node' :
  set_loop parts v node = (r, node') -> keeps_shape node node'.
Proof.
  intros H. destruct parts as [|part rest].
  - simpl in H. inversion H. apply keeps_shape_refl.
  - destruct r as [[|]|e].
    + apply set_loop_inv in H as (Hs & c & -> & _).
      now apply keeps_shape_plug.
    + apply set_loop_unchanged in H; [|discriminate]. subst.
      apply keeps_shape_refl.
    + apply set_loop_unchanged in H; [|discriminate]. subst.
      apply keeps_shape_refl.
Qed.

End PathEngineMore.

(** X1. A call of [_set_nested_value] that raises has not touched its
    target. *)
Theorem raising_write_leaves_target (path v doc doc' : pyobj) (e : exn) :
  _set_nested_value path v doc = (Raise e, doc') -> doc' = doc.
Proof.
  unfold _set_nested_value. destruct (py_split path) as [parts|e'].
  - intros H. apply (set_loop_unchanged _ _ _ _ _ H). discriminate.
  - intros H. now inversion H.
Qed.

Lemma raising_write_leaves_target_witness :
  let path := VStr ("grid.1." ++ String (ascii_of_N 179) EmptyString) in
  let doc := VDict [("grid", VList [VList []; VList [VInt 7]])] in
  _set_nested_value path VNone doc = (Raise ValueError, doc) /\ doc = doc.
Proof.
  intros path doc. split; [reflexivity|].
  apply (raising_write_leaves_target path VNone doc doc ValueError).
  reflexivity.
Defined.

(** X2. On a [str] path, [_get_nested_value] raises exactly where
    [_set_nested_value] on the same target raises, with the same
    exception, and that exception is [ValueError]. *)
Theorem read_raises_where_write_raises (p : string) (v doc : pyobj) (e : exn) :
  (_get_nested_value (VStr p) doc = Raise e <->
   fst (_set_nested_value (VStr p) v doc) = Raise e) /\
  (_get_nested_value (VStr p) doc = Raise e -> e = ValueError).
Proof.
  unfold _get_nested_value, _set_nested_value. simpl. split.
  - symmetry. apply set_raises_iff_get_raises.
  - apply get_loop_raises_ValueError.
Qed.

Lemma read_raises_where_write_raises_witness :
  let p := ("l." ++ String (ascii_of_N 185) EmptyString)%string in
  let doc := VDict [("l", VList [VInt 1])] in
  _get_nested_value (VStr p) doc = Raise ValueError /\
  fst (_set_nested_value (VStr p) VNone doc) = Raise ValueError.
Proof.
  intros p doc. split; [reflexivity|].
  apply (proj1 (proj1 (read_raises_where_write_raises p VNone doc ValueError))).
  reflexivity.
Defined.

(** X3. The last write wins: after a successful write at a path, a
    write at the same path returns, and leaves in the target, what it
    would have without the first one.  With the same value twice the
    second write changes nothing. *)
Theorem last_write_wins (p : string) (v w doc doc1 : pyobj) :
  _set_nested_value (VStr p) v doc = (Ok true, doc1) ->
  _set_nested_value (VStr p) w doc1 = _set_nested_value (VStr p) w doc /\
  _set_nested_value (VStr p) v doc1 = (Ok true, doc1).
Proof.
  unfold _set_nested_value. simpl. intros H. split.
  - now apply set_loop_overwrite with (v := v).
  - now rewrite (set_loop_overwrite _ _ _ _ _ H).
Qed.

Lemma last_write_wins_witness :
  let doc := VDict [("a", VInt 1); ("l", VList [VNone])] in
  let doc1 := VDict [("a", VInt 1); ("l", VList [VDict [("k", VInt 2)]])] in
  _set_nested_value (VStr "l.0.k") (VInt 2) doc = (Ok true, doc1) /\
  _set_nested_value (VStr "l.0.k") (VInt 3) doc1 =
  _set_nested_value (VStr "l.0.k") (VInt 3) doc /\
  _set_nested_value (VStr "l.0.k") (VInt 2) doc1 = (Ok true, doc1).
Proof.
  intros doc doc1. split; [reflexivity|].
  apply (last_write_wins "l.0.k" (VInt 2) (VInt 3) doc doc1). reflexivity.
Defined.

(** X4. Into an empty [dict] every write succeeds, whatever the path
    (the empty path and empty segments included): the result is the
    chain of [dict]s that holds the value under the segments. *)
Theorem write_into_empty_dict (p : string) (v : pyobj) :
  _set_nested_value (VStr p) v (VDict []) = (Ok true, nested (PyStr.split p) v).
Proof.
  unfold _set_nested_value. simpl. apply set_loop_fresh, split_nonempty.
Qed.

(** X5. Reading a path [p.q] is reading [q] in what reading [p]
    returns; where reading [p] raises, reading [p.q] raises the same. *)
Theorem read_composes (p q : string) (doc : pyobj) :
  _get_nested_value (VStr (p ++ "." ++ q)) doc =
  match _get_nested_value (VStr p) doc with
  | Ok node => _get_nested_value (VStr q) node
  | Raise e => Raise e
  end.
Proof.
  unfold _get_nested_value, py_split. rewrite split_app_dot.
  destruct (get_loop (PyStr.split p) doc) as [node|e] eqn:E.
  - now apply get_loop_app.
  - now apply get_loop_app_raise.
Qed.

(** X6. A write that does not return [True] has only two causes: the
    target is no container, or the path leads, through containers that
    exist, to a [list] in which the next segment addresses no slot
    (it is no index literal, or [int] refuses it, or the index is out
    of bounds). *)
Theorem failed_write_cause (p : string) (v doc doc' : pyobj) (r : result bool) :
  _set_nested_value (VStr p) v doc = (r, doc') ->
  r <> Ok true ->
  is_container doc = false \/
  exists pre part rest l,
    PyStr.split p = pre ++ part :: rest /\
    get_loop pre doc = Ok (VList l) /\
    has_slot (VList l) part = false.
Proof.
  unfold _set_nested_value. simpl. intros H Hr.
  destruct (set_loop_failure _ _ _ _ _ (split_nonempty p) H Hr)
    as (pre & part & rest & bad & Hp & Hg & Hb & Hc).
  destruct bad as [| | | |l|d]; try discriminate;
    try (left; destruct Hc as [-> | Hc]; [|discriminate];
         simpl in Hg; inversion Hg; reflexivity).
  right. exists pre, part, rest, l. auto.
Qed.

Lemma failed_write_cause_witness :
  let doc := VDict [("list", VList [VInt 0; VInt 1; VInt 2])] in
  (_set_nested_value (VStr "list.x.y") (VInt 1) doc = (Ok false, doc) /\
   Ok false <> Ok true) /\
  (is_container doc = false \/
   exists pre part rest l,
     PyStr.split "list.x.y" = pre ++ part :: rest /\
     get_loop pre doc = Ok (VList l) /\
     has_slot (VList l) part = false).
Proof.
  intros doc. split; [split; [reflexivity|discriminate]|].
  apply (failed_write_cause "list.x.y" (VInt 1) doc doc (Ok false)).
  - reflexivity.
  - discriminate.
Defined.

(** X7. Whatever it returns, a write keeps the shape of its target: a
    [dict] stays a [dict] that has its former keys first, in their
    order; a [list] stays a [list] of the same length; another object
    is left as it is. *)
Theorem write_keeps_shape (path v doc doc' : pyobj) (r : result bool) :
  _set_nested_value path v doc = (r, doc') -> keeps_shape doc doc'.
Proof.
  unfold _set_nested_value. destruct (py_split path) as [parts|e].
  - apply set_loop_keeps_shape.
  - intros H. inversion H. apply keeps_shape_refl.
Qed.

Lemma write_keeps_shape_witness :
  let doc := VDict [("b", VInt 1); ("a", VList [VInt 0])] in
  let doc' := VDict [("b", VInt 1); ("a", VList [VInt 0]);
                     ("c", VDict [("d", VNone)])] in
  _set_nested_value (VStr "c.d") VNone doc = (Ok true, doc') /\
  keeps_shape doc doc'.
Proof.
  intros doc doc'. split; [reflexivity|].
  apply (write_keeps_shape (VStr "c.d") VNone doc doc' (Ok true)).
  reflexivity.
Defined.

(** ** More about the action processor *)

Section ProcessorMore.

Context {py : interpreter}.

Lemma set_nested_keeps_shape path v doc r doc' :
  _set_nested_value path v doc = (r, doc') -> keeps_shape doc doc'.
Proof.
  unfold _set_nested_value. destruct (py_split path) as [parts|e].
  - apply set_loop_keeps_shape.
  - intros H. inversion H. apply keeps_shape_refl.
Qed.

(** What [process] can do to a store, whatever the store. *)
Lemma process_effect action (self : store) :
  let self' := snd (process action self) in
  keeps_shape (_state self) (_state self') /\
  items (_action_queue self') = items (_action_queue self) /\
  exists emitted,
    _event_queue self' = _event_queue self ++ emitted /\
    (List.length emitted <= 1)%nat.
Proof.
  destruct self as [doc [its m] events]. simpl.
  assert (Hsame : keeps_shape doc doc /\
                  its = its /\
                  exists emitted,
                    events = events ++ emitted /\
                    (List.length emitted <= 1)%nat).
  { split; [apply keeps_shape_refl|]. split; [reflexivity|].
    exists []. rewrite app_nil_r. auto. }
  unfold process, bind, lift, py_format, deepcopy, action_task_done,
    task_done.
  simpl.
  destruct (passes formats_action action); simpl; [|exact Hsame].
  destruct action as [| | | |l|d]; simpl; try exact Hsame.
  destruct (is_set_state (PyDict.get d "type"));
    [|destruct m; simpl; exact Hsame].
  destruct (is_None (PyDict.get d "path"));
    [destruct m; simpl; exact Hsame|].
  simpl.
  destruct (_get_nested_value (PyDict.get d "path") doc) as [old|e]; simpl;
    [|exact Hsame].
  destruct (passes copies_state doc); simpl; [|exact Hsame].
  destruct (_set_nested_value (PyDict.get d "path") (PyDict.get d "value") doc)
    as [[[|]|e] doc'] eqn:Hset; simpl;
    try (destruct m; simpl; exact Hsame).
  apply set_nested_keeps_shape in Hset.
  destruct (_get_nested_value (PyDict.get d "path") doc') as [new|e]; simpl.
  - destruct m; simpl; (split; [assumption|]); (split; [reflexivity|]);
      eexists; split; try reflexivity; simpl; lia.
  - split; [assumption|]. split; [reflexivity|].
    exists []. rewrite app_nil_r. auto.
Qed.

Lemma iteration_effect (self : store) :
  match iteration self with
  | Waiting => True
  | Next self' | Crashed _ self' =>
      keeps_shape (_state self) (_state self') /\
      exists emitted,
        _event_queue self' = _event_queue self ++ emitted /\
        (List.length emitted <= 1)%nat
  end.
Proof.
  unfold iteration. destruct (items (_action_queue self)) as [|a pending];
    [exact I|].
  pose proof (process_effect a
                (mkStore (_state self)
                   (mkQueue pending (_unfinished_tasks (_action_queue self)))
                   (_event_queue self))) as H.
  destruct (process a _) as [[u|e] self1]; simpl in H.
  - destruct H as (H1 & _ & H2). auto.
  - destruct H as (H1 & _ & H2).
    unfold action_task_done.
    destruct (task_done (_action_queue self1)); simpl; auto.
Qed.

Lemma run_effect rounds :
  forall self : store,
    let self' := store_of (_action_processor rounds self) in
    keeps_shape (_state self) (_state self') /\
    exists emitted,
      _event_queue self' = _event_queue self ++ emitted /\
      (List.length emitted <= rounds)%nat.
Proof.
  assert (Hsame : forall self : store,
             keeps_shape (_state self) (_state self) /\
             exists emitted,
               _event_queue self = _event_queue self ++ emitted /\
               (List.length emitted <= 0)%nat).
  { intros self. split; [apply keeps_shape_refl|].
    exists []. rewrite app_nil_r. auto. }
  induction rounds as [|rounds IH]; intros self.
  - apply Hsame.
  - simpl. pose proof (iteration_effect self) as H.
    destruct (iteration self) as [|self1|e self1].
    + destruct (Hsame self) as (H1 & emitted & H2 & H3).
      split; [assumption|]. exists emitted. split; [assumption|]. lia.
    + destruct H as (H1 & em1 & H2 & H3).
      destruct (IH self1) as (H4 & em2 & H5 & H6). split.
      * eapply keeps_shape_trans; eassumption.
      * exists (em1 ++ em2). rewrite H5, H2, app_assoc, length_app.
        split; [reflexivity|lia].
    + simpl. destruct H as (H1 & em1 & H2 & H3).
      split; [assumption|]. exists em1. split; [assumption|lia].
Qed.

Lemma applies_needs_container doc action :
  is_container doc = false -> applies doc action = false.
Proof.
  intros Hc. destruct (applies doc action) eqn:Ha; [|reflexivity].
  destruct (applies_inv _ _ Ha) as (d & p & doc' & _ & _ & _ & _ & _ & Hset).
  unfold _set_nested_value in Hset. simpl in Hset.
  destruct (PyStr.split p) as [|part rest] eqn:E;
    [now apply split_nonempty in E|].
  rewrite set_loop_scalar in Hset by assumption. discriminate.
Qed.

(** One round is one step of the replay. *)
Lemma iteration_replays (self : store) action pending :
  items (_action_queue self) = action :: pending ->
  consistent (_action_queue self) = true ->
  iteration self =
  Next (mkStore
          (fst (replay_action (_state self, _event_queue self) action))
          (mkQueue pending (pred (_unfinished_tasks (_action_queue self))))
          (snd (replay_action (_state self, _event_queue self) action))).
Proof.
  destruct self as [doc [its m] events]. unfold consistent. simpl.
  intros -> Hm. apply Nat.leb_le in Hm. simpl in Hm.
  destruct m as [|n]; [lia|]. simpl pred.
  unfold replay_action. simpl fst. simpl snd.
  destruct (applies doc action) eqn:Ha.
  - destruct (applies_inv _ _ Ha)
      as (d & p & doc' & -> & Hf & Ht & Hp & Hc & Hset).
    destruct (iteration_applies doc events _ pending n d p doc'
                eq_refl Hf Ht Hp Hc Hset) as (old_value & Hold & ->).
    simpl. now rewrite Hp, Hset, Hold.
  - now apply iteration_skips.
Qed.

Lemma run_replays actions :
  forall (self : store) later,
    items (_action_queue self) = actions ++ later ->
    consistent (_action_queue self) = true ->
    _action_processor (List.length actions) self =
    Running
      (mkStore
         (fst (replay actions (_state self, _event_queue self)))
         (mkQueue later
            (_unfinished_tasks (_action_queue self) - List.length actions))
         (snd (replay actions (_state self, _event_queue self)))).
Proof.
  induction actions as [|a tl IH]; intros self later Hi Hc.
  - destruct self as [doc [its m] events]. simpl in *. subst its.
    now rewrite Nat.sub_0_r.
  - simpl app in Hi. simpl _action_processor.
    rewrite (iteration_replays self a (tl ++ later) Hi Hc).
    unfold consistent in Hc. rewrite Hi in Hc. apply Nat.leb_le in Hc.
    simpl in Hc.
    destruct (_unfinished_tasks (_action_queue self)) as [|n] eqn:Hn; [lia|].
    rewrite IH with (later := later); simpl; auto.
    + now destruct (replay_action (_state self, _event_queue self) a).
    + unfold consistent. simpl. apply Nat.leb_le. rewrite length_app in *.
      lia.
Qed.

End ProcessorMore.

(** ** The instance and its calls *)

Section Instance.

Context {py : interpreter}.

Lemma dispatch_effect action (self : store) :
  snd (dispatch action self) =
  mkStore (_state self) (put (_action_queue self) action) (_event_queue self).
Proof.
  unfold dispatch. destruct action as [| | | |l|d]; try reflexivity.
  now destruct (PyDict.getitem d "type").
Qed.

Lemma sound_consistent (self : instance) :
  sound self -> consistent (_action_queue (this self)) = true.
Proof.
  intros [H _]. unfold consistent. rewrite H. apply Nat.leb_refl.
Qed.

Lemma task_round_cases (self : instance) :
  sound self ->
  task_round self = self \/
  exists action pending,
    _processing_task self = Some Pending /\
    items (_action_queue (this self)) = action :: pending /\
    task_round self =
    mkInstance
      (mkStore
         (fst (replay_action (_state (this self), _event_queue (this self))
                 action))
         (mkQueue pending (List.length pending))
         (snd (replay_action (_state (this self), _event_queue (this self))
                 action)))
      (Some Pending).
Proof.
  intros Hs. pose proof (sound_consistent _ Hs) as Hc.
  destruct Hs as [Hu _]. unfold task_round.
  destruct (_processing_task self) as [[| |e]|] eqn:Ht; auto.
  unfold iteration at 1.
  destruct (items (_action_queue (this self))) as [|a pending] eqn:Hi; auto.
  right. exists a, pending.
  rewrite (iteration_replays (this self) a pending Hi Hc), Hu.
  simpl. auto.
Qed.

Lemma after_call_sound (self : instance) c :
  sound self ->
  sound (after_call self c) /\
  is_pending (after_call self c) =
  match c with
  | Start => true
  | Stop => false
  | _ => is_pending self
  end.
Proof.
  intros Hs. pose proof Hs as [Hu Hf]. destruct c as [read| | |action|].
  - split; [|reflexivity]. split; auto.
  - destruct self as [s [[| |e]|]]; simpl in *;
      unfold sound, is_pending; simpl; repeat split; auto; discriminate.
  - destruct self as [s [[| |e]|]]; simpl in *;
      unfold sound, is_pending; simpl; repeat split; auto;
      discriminate.
  - split; [|reflexivity]. unfold sound, after_call.
    cbn [this _processing_task]. rewrite dispatch_effect. simpl.
    rewrite length_app. simpl. split; [lia|assumption].
  - unfold after_call.
    destruct (task_round_cases self Hs)
      as [->|(a & pending & Ht & Hi & ->)]; [auto|].
    unfold is_pending, sound. simpl. rewrite Ht.
    repeat split; auto. discriminate.
Qed.

Lemma after_calls_sound cs :
  forall (self : instance) (started : bool),
    sound self -> is_pending self = started ->
    sound (after_calls cs self) /\
    is_pending (after_calls cs self) =
    fold_left
      (fun started c =>
         match c with Start => true | Stop => false | _ => started end)
      cs started.
Proof.
  induction cs as [|c cs IH]; intros self started Hs Hp; [auto|].
  destruct (after_call_sound self c Hs) as [Hs' Hp'].
  apply (IH (after_call self c) _ Hs').
  rewrite Hp'. now destruct c.
Qed.

Lemma new_sound : sound new.
Proof. split; [reflexivity|discriminate]. Qed.

(** The pending items of the instance and what it has done so far
    replay as all the dispatched actions do. *)
Lemma after_calls_replay cs :
  forall self : instance,
    no_load cs = true -> sound self ->
    replay (items (_action_queue (this (after_calls cs self))))
      (_state (this (after_calls cs self)),
       _event_queue (this (after_calls cs self))) =
    replay (items (_action_queue (this self)) ++ dispatched cs)
      (_state (this self), _event_queue (this self)).
Proof.
  induction cs as [|c cs IH]; intros self Hn Hs.
  - simpl. now rewrite app_nil_r.
  - simpl in Hn. apply andb_true_iff in Hn as [Hc Hn].
    destruct (after_call_sound self c Hs) as [Hs' _].
    change (after_calls (c :: cs) self)
      with (after_calls cs (after_call self c)).
    rewrite (IH _ Hn Hs').
    destruct c as [read| | |action|]; try discriminate.
    + destruct self as [s [[| |e]|]]; reflexivity.
    + destruct self as [s [[| |e]|]]; reflexivity.
    + unfold after_call. cbn [this]. rewrite dispatch_effect. simpl.
      now rewrite <- app_assoc.
    + unfold after_call.
      destruct (task_round_cases self Hs)
        as [->|(a & pending & Ht & Hi & ->)]; [reflexivity|].
      cbn [this _state _event_queue _action_queue items dispatched].
      rewrite Hi. unfold replay. simpl.
      now destruct (replay_action
                      (_state (this self), _event_queue (this self)) a).
Qed.

End Instance.

(** ** More properties of the action processor *)

(** X8. A store whose document is no container ([json.load] gives
    one for a file that holds a number, a string, [true] or [null])
    never changes it and never emits an event, whatever is queued. *)
Theorem scalar_document_is_stuck {py : interpreter}
        (self : store) (rounds : nat) :
  is_container (_state self) = false ->
  consistent (_action_queue self) = true ->
  exists self',
    _action_processor rounds self = Running self' /\
    _state self' = _state self /\
    _event_queue self' = _event_queue self.
Proof.
  revert self. induction rounds as [|rounds IH]; intros self Hd Hc.
  - exists self. auto.
  - simpl. destruct (items (_action_queue self)) as [|a pending] eqn:Hi.
    + unfold iteration. rewrite Hi. exists self. auto.
    + destruct (iteration_any self a pending Hi Hc)
        as (self1 & -> & _ & _ & Hc1 & Hsame).
      destruct (Hsame (applies_needs_container _ a Hd)) as [Hs He].
      destruct (IH self1) as (self' & Hr & Hs' & He'); auto.
      * now rewrite Hs.
      * exists self'. rewrite Hr, Hs', He', Hs, He. auto.
Qed.

Lemma scalar_document_is_stuck_witness :
  let py := room 400 in
  let self :=
    mkStore VNone
      (mkQueue [VDict [("type", VStr "SET_STATE"); ("path", VStr "a");
                       ("value", VInt 1)]] 1) [] in
  exists self',
    _action_processor 5 self = Running self' /\
    _state self' = _state self /\
    _event_queue self' = _event_queue self.
Proof.
  intros py self. apply (scalar_document_is_stuck self 5); reflexivity.
Defined.

(** X9. The loop, with its early [continue] and its handler, does to
    the document and the events what the plain replay of the queued
    actions does, one after the other in queue order: an action that
    applies (the interpreter can format it and copy the document, and
    its write succeeds) writes its value and adds its event, every
    other action does nothing; each action taken is marked done. *)
Theorem loop_is_replay {py : interpreter}
        (self : store) (actions later : list pyobj) :
  items (_action_queue self) = actions ++ later ->
  consistent (_action_queue self) = true ->
  _action_processor (List.length actions) self =
  Running
    (mkStore
       (fst (replay actions (_state self, _event_queue self)))
       (mkQueue later
          (_unfinished_tasks (_action_queue self) - List.length actions))
       (snd (replay actions (_state self, _event_queue self)))).
Proof. apply run_replays. Qed.

Lemma loop_is_replay_witness :
  let py := room 400 in
  let actions :=
    [VDict [("type", VStr "SET_STATE"); ("path", VStr "n.0"); ("value", VInt 1)];
     VInt 7;
     VDict [("type", VStr "SET_STATE"); ("path", VStr "n"); ("value", VList [])];
     VDict [("type", VStr "SET_STATE"); ("path", VStr "n.0"); ("value", VInt 2)];
     VDict [("type", VStr "OTHER")]] in
  let self := mkStore (VDict []) (mkQueue actions 5) [] in
  _action_processor 5 self =
  Running
    (mkStore (fst (replay actions (VDict [], [])))
       (mkQueue [] 0)
       (snd (replay actions (VDict [], [])))).
Proof.
  intros py actions self.
  apply (loop_is_replay self actions []); reflexivity.
Defined.

(** X10. Over any number of rounds, and whether or not the loop
    survives them, the document keeps its shape (a [dict] stays a
    [dict] and keeps its keys, in their order, before any new one; a
    [list] stays a [list] of the same length) and the event queue only
    grows at its end, by one event a round at most. *)
Theorem rounds_keep_shape_and_events {py : interpreter}
        (self : store) (rounds : nat) :
  let self' := store_of (_action_processor rounds self) in
  keeps_shape (_state self) (_state self') /\
  exists emitted,
    _event_queue self' = _event_queue self ++ emitted /\
    (List.length emitted <= rounds)%nat.
Proof. apply run_effect. Qed.



(** ** Properties of the instance *)

(** X12. Whatever the calls of [load_initial_state],
    [start_processing], [stop_processing] and [dispatch] on a new
    instance, and however the rounds of its loop fall between them, no
    exception leaves the loop, and the queue counts as unfinished
    exactly the actions that are still pending. *)
Theorem no_exception_leaves_the_loop {py : interpreter} (cs : list call) :
  let self := after_calls cs new in
  (forall e, _processing_task self <> Some (Failed e)) /\
  _unfinished_tasks (_action_queue (this self)) =
  List.length (items (_action_queue (this self))).
Proof.
  destruct (after_calls_sound cs new false new_sound eq_refl) as [[H1 H2] _].
  split; assumption.
Qed.

(** X13. After any calls on a new instance, none of which overlaps
    another, the task of the instance is one that is not done exactly
    when the last call among those of [start_processing] and
    [stop_processing] was one of [start_processing]. *)
Theorem task_runs_iff_started_last {py : interpreter} (cs : list call) :
  is_pending (after_calls cs new) = started_last cs.
Proof.
  now destruct (after_calls_sound cs new false new_sound eq_refl) as [_ H].
Qed.

(** X14. Starting from the document that [load_initial_state] leaves,
    whatever the calls of [dispatch], [start_processing] and
    [stop_processing] and however the rounds of the loop fall between
    them: once the loop has taken what is still pending, the document
    and the events are those of replaying the dispatched actions in
    the order of their [dispatch] calls (an action applies when the
    interpreter can format it and copy the document and its write
    succeeds; any other action does nothing), and nothing is left
    unfinished. *)
Theorem dispatch_order_decides {py : interpreter}
        (read : read_result) (cs : list call) :
  no_load cs = true ->
  let self := this (after_calls (Load read :: cs) new) in
  let R :=
    replay (dispatched cs) (_state (load_initial_state read init), []) in
  _action_processor (List.length (items (_action_queue self))) self =
  Running (mkStore (fst R) (mkQueue [] 0) (snd R)).
Proof.
  intros Hn self R.
  assert (Hs0 : sound (after_call new (Load read)))
    by (split; [reflexivity|discriminate]).
  destruct (after_calls_sound cs _ false Hs0 eq_refl) as [Hs _].
  pose proof (after_calls_replay cs _ Hn Hs0) as Hr.
  change (after_calls cs (after_call new (Load read)))
    with (after_calls (Load read :: cs) new) in Hs, Hr.
  fold self in Hr. simpl in Hr.
  rewrite (run_replays _ self [] (eq_sym (app_nil_r _))
             (sound_consistent _ Hs)).
  destruct Hs as [Hu _]. fold self in Hu.
  rewrite Hu, Nat.sub_diag. unfold replay in *. rewrite Hr. reflexivity.
Qed.

Lemma dispatch_order_decides_witness :
  let py := room 400 in
  let a1 := VDict [("type", VStr "SET_STATE"); ("path", VStr "x");
                   ("value", VInt 1)] in
  let a2 := VDict [("path", VStr "x"); ("value", VInt 2)] in
  let a3 := VDict [("type", VStr "SET_STATE"); ("path", VStr "x.y");
                   ("value", VInt 3)] in
  let cs := [Dispatch a1; Start; Round; Dispatch a2; Stop; Round;
             Dispatch a3; Start] in
  let self := this (after_calls (Load FileNotFoundError :: cs) new) in
  let R := replay [a1; a2; a3] (VDict [], []) in
  no_load cs = true /\
  _action_processor (List.length (items (_action_queue self))) self =
  Running (mkStore (fst R) (mkQueue [] 0) (snd R)).
Proof.
  intros py a1 a2 a3 cs self R. split; [reflexivity|].
  apply (dispatch_order_decides FileNotFoundError cs). reflexivity.
Defined.
